(** * chat-backend: delivery/read acknowledgments and call signalling

    A shallow embedding of [src/controllers/messageController.ts] and
    [src/controllers/callController.ts].  The Prisma store is a record of
    finite maps keyed by record id, every request handler is a function from
    the world before the request to the HTTP response and the world after it,
    and the world carries the log of [sendEventToUser] calls. *)

From stdpp Require Import base gmap strings list pretty sorting.
From Stdlib Require Import ZArith.

Local Open Scope string_scope.

(** ** JavaScript values *)

(** [!x] on an optional string: [undefined], [null] and [""] are falsy. *)
Definition truthy (o : option string) : option string :=
  match o with
  | Some s => if decide (s = "") then None else Some s
  | None => None
  end.

(** [a || b] where [b] is a string. *)
Definition js_or (a : option string) (b : string) : string :=
  default b (truthy a).

(** ** Schema (prisma/migrations, @prisma/client enums) *)

Inductive MessageStatus := SENT | DELIVERED | READ.

(** Modelled from the spec: the [CallStatus] enum is declared in the Prisma
    schema, which is not under src/; its values are the seven states of
    section 3, four of which the controller names. *)
Inductive CallStatus :=
  INITIATED | RINGING | ACCEPTED | ENDED | REJECTED | MISSED | BUSY.

#[global] Instance MessageStatus_eq_dec : EqDecision MessageStatus.
Proof. solve_decision. Defined.

#[global] Instance CallStatus_eq_dec : EqDecision CallStatus.
Proof. solve_decision. Defined.

Module User.
Record t := mk { name : string; avatarUrl : option string }.
End User.

(** Table [messages] with its two join tables [_MessageDeliveredTo] and
    [_MessageReadBy], kept as the lists of user ids a query with
    [include: { deliveredTo: true, readBy: true }] returns.  Content, type,
    attachments and the timestamps play no part in the acknowledgment logic
    and are left out. *)
Module Message.
Record t := mk {
  senderId : string;
  receiverId : string;
  conversationId : option string;
  clientId : option string;
  status : MessageStatus;
  deliveredTo : list string;
  readBy : list string;
}.

Definition set_status (st : MessageStatus) (m : t) : t :=
  mk (senderId m) (receiverId m) (conversationId m) (clientId m) st
     (deliveredTo m) (readBy m).

Definition set_relations (dl rb : list string) (m : t) : t :=
  mk (senderId m) (receiverId m) (conversationId m) (clientId m) (status m)
     dl rb.
End Message.

(** Modelled from the spec: the declaration of table [calls] is not part of
    the migration under [prisma/migrations].  The columns are those of the
    spec's Call (section 3), which are the ones the controller reads and
    writes; the only constraint is the primary key on [id]. *)
Module Call.
Record t := mk {
  callerId : string;
  receiverId : string;
  type : string;
  conversationId : option string;
  roomId : string;
  status : CallStatus;
  startTime : option Z;
  endTime : option Z;
  duration : option Z;
}.
End Call.

(** The store.  A conversation is kept as the [userId] column of its
    [conversation_members] rows, in row order. *)
Record Db := mkDb {
  users : gmap string User.t;
  conversations : gmap string (list string);
  messages : gmap string Message.t;
  calls : gmap string Call.t;
}.

Definition with_messages (ms : gmap string Message.t) (d : Db) : Db :=
  mkDb (users d) (conversations d) ms (calls d).

Definition with_calls (cs : gmap string Call.t) (d : Db) : Db :=
  mkDb (users d) (conversations d) (messages d) cs.

(** ** Events and responses *)

(** A media-session credential, kept as the grant it was minted for. *)
Record Token := mkToken {
  room : string;
  identity : string;
  participantName : option string;
}.

Inductive Payload :=
| MessageNewPayload (id conversationId senderId : string)
    (clientId : option string) (status : MessageStatus)
| MessageStatusPayload (messageId status userId : string)
| CallIncomingPayload (callId : string) (caller : option (string * User.t))
    (type roomId : string) (conversationId : option string)
| CallAcceptedPayload (callId receiverId : string)
| CallEndedPayload (callId status : string) (duration : Z)
| CallRingingPayload (callId : string).

Record Event := mkEvent {
  targetUserId : string;
  eventName : string;
  payload : Payload;
  timestamp : Z;
}.

Inductive Body :=
| ErrorBody (error : string)
| SuccessBody
| AlreadyBody (message messageId : string)
| SentBody (id : string) (m : Message.t)
| DeliveredBody (messageId : string) (deliveredTo : list string)
    (status : MessageStatus)
| ReadBody (messageId : string) (readBy deliveredTo : list string)
    (status : MessageStatus)
| CallBody (id : string) (call : Call.t) (token : Token)
| TokenBody (token : Token).

Record Response := res { code : nat; body : Body }.

Record World := mkWorld {
  db : Db;
  outbox : list Event;
}.

(** Modelled from the spec: the [sse] module ([sendEventToUser],
    [sseManager]) is not under src/.  Section 4.2 makes the call
    fire-and-forget, so the embedding records each call, in order, in the
    world's [outbox]. *)
Definition sendEventToUser (userId eventName : string) (p : Payload)
    (now : Z) (w : World) : World :=
  mkWorld (db w) (outbox w ++ [mkEvent userId eventName p now]).

(** ** Prisma operations used by the controllers

    [None] stands for a thrown [PrismaClientKnownRequestError]; the
    controllers turn it into a 500 response in their [catch] block. *)
Module Prisma.

(** [connect: { id }] on an implicit many-to-many relation: the join table
    has primary key (A, B), so connecting a connected pair changes
    nothing.  The list keeps the users in the order they were connected;
    the store promises no order when the relation is read back, so what is
    stated about these lists is stated up to order (membership, length,
    permutation). *)
Definition connect (u : string) (l : list string) : list string :=
  if bool_decide (u ∈ l) then l else l ++ [u].

(** The join tables reference [users(id)]: connecting an unknown user
    throws. *)
Definition connect_user (d : Db) (u : string) (l : list string)
    : option (list string) :=
  match users d !! u with
  | Some _ => Some (connect u l)
  | None => None
  end.

(** [prisma.message.update({ where: { id }, data })]; throws when the
    record is absent or the data cannot be applied. *)
Definition message_update (id : string)
    (data : Message.t → option Message.t) (d : Db) : option Db :=
  match messages d !! id with
  | Some m =>
      match data m with
      | Some m' => Some (with_messages (<[id := m']> (messages d)) d)
      | None => None
      end
  | None => None
  end.

(** [prisma.message.create]: primary key on [id], foreign keys on
    [senderId] and [receiverId], unique index on [clientId]. *)
Definition message_create (id : string) (m : Message.t) (d : Db)
    : option Db :=
  if bool_decide
       (messages d !! id = None
        ∧ is_Some (users d !! Message.senderId m)
        ∧ is_Some (users d !! Message.receiverId m)
        ∧ (is_Some (Message.clientId m) →
           map_Forall (λ _ m', Message.clientId m' ≠ Message.clientId m)
                      (messages d)))
  then Some (with_messages (<[id := m]> (messages d)) d)
  else None.

End Prisma.

(** ** messageController.ts *)
Module MessageController.

Record Attachment := mkAttachment {
  att_type : option string;
  att_url : option string;
}.

(** [!attachment.type || !attachment.url] *)
Definition attachment_invalid (a : Attachment) : bool :=
  bool_decide (truthy (att_type a) = None ∨ truthy (att_url a) = None).

(** [conversation.members.find((member) => member.userId !== userId)
     || conversation.members[0]], then [receiverMember?.userId || userId]. *)
Definition receiverId (members : list string) (userId : string) : string :=
  let receiverMember :=
    match snd <$> list_find (λ member, member ≠ userId) members with
    | Some member => Some member
    | None => head members
    end in
  js_or receiverMember userId.

(** [conversation.members.filter((member) => member.userId !== userId)
      .map((member) => member.userId)] *)
Definition recipientIds (members : list string) (userId : string)
    : list string :=
  filter (λ member, member ≠ userId) members.

(** POST /messages/send.  [newId] is the id the store generates for the new
    row.  After the message is created the handler sets [lastMessageAt] of
    the conversation (lines 119-123); the conversation has just been read,
    so the update finds its row, and [Db] keeps the member rows of a
    conversation only, so the update leaves no trace here: nothing below
    says that a conversation row is untouched by a send, only that its
    member rows are. *)
Definition sendMessage (user conversationId clientId text : option string)
    (attachments : option (list Attachment)) (newId : string) (now : Z)
    (w : World) : Response * World :=
  match truthy user with
  | None => (res 401 (ErrorBody "Authentication required"), w)
  | Some userId =>
  match truthy conversationId with
  | None => (res 400 (ErrorBody "conversationId is required"), w)
  | Some cid =>
  if bool_decide (truthy text = None ∧ default [] attachments = [])
  then (res 400 (ErrorBody "Either text or attachments must be provided"), w)
  else
  match conversations (db w) !! cid with
  | None => (res 404 (ErrorBody "Conversation not found"), w)
  | Some members =>
  if negb (bool_decide (userId ∈ members))
  then (res 403 (ErrorBody "You are not a member of this conversation"), w)
  else
  if existsb attachment_invalid (default [] attachments)
  then (res 400 (ErrorBody "Each attachment must have type and url"), w)
  else
  let message :=
    Message.mk userId (receiverId members userId) (Some cid)
               (truthy clientId) SENT [] [] in
  match Prisma.message_create newId message (db w) with
  | None => (res 500 (ErrorBody "Failed to send message"), w)
  | Some d1 =>
  let messagePayload :=
    MessageNewPayload newId cid userId (Message.clientId message)
                      (Message.status message) in
  let w1 :=
    foldl (λ w' recipientId,
             sendEventToUser recipientId "message:new" messagePayload now w')
          (mkWorld d1 (outbox w)) (recipientIds members userId) in
  (res 201 (SentBody newId message), w1)
  end end end end.

(** [message.conversation.members.filter(
      (member) => member.userId !== message.senderId).length] *)
Definition recipientCount (members : list string) (senderId : string) : nat :=
  length (filter (λ member, member ≠ senderId) members).

(** [message.conversation] as loaded by [include: { conversation: { include:
    { members: true } } }], under the guard
    [message.conversationId && message.conversation]. *)
Definition conversation_of (d : Db) (message : Message.t)
    : option (list string) :=
  match truthy (Message.conversationId message) with
  | Some cid => conversations d !! cid
  | None => None
  end.

(** POST /messages/:id/delivered *)
Definition markDelivered (user : option string) (id : string)
    (toUserId : option string) (now : Z) (w : World) : Response * World :=
  match truthy user with
  | None => (res 401 (ErrorBody "Authentication required"), w)
  | Some userId =>
  let targetUserId := js_or toUserId userId in
  match messages (db w) !! id with
  | None => (res 404 (ErrorBody "Message not found"), w)
  | Some message =>
  let alreadyDelivered :=
    bool_decide (targetUserId ∈ Message.deliveredTo message) in
  if alreadyDelivered
  then (res 200 (AlreadyBody "Message already marked as delivered" id), w)
  else
  match Prisma.message_update id
          (λ m, dl ← Prisma.connect_user (db w) targetUserId
                         (Message.deliveredTo m);
                Some (Message.set_relations dl (Message.readBy m) m))
          (db w) with
  | None => (res 500 (ErrorBody "Failed to mark message as delivered"), w)
  | Some d1 =>
  let promoted :=
    match conversation_of (db w) message with
    | Some members =>
        match messages d1 !! id with
        | Some updatedMessage =>
            bool_decide (recipientCount members (Message.senderId message)
                         ≤ length (Message.deliveredTo updatedMessage))%nat
        | None => false
        end
    | None => false
    end in
  let updatedStatus :=
    if promoted then DELIVERED else Message.status message in
  match (if promoted
         then Prisma.message_update id
                (λ m, Some (Message.set_status DELIVERED m)) d1
         else Some d1) with
  | None => (res 500 (ErrorBody "Failed to mark message as delivered"),
             mkWorld d1 (outbox w))
  | Some d2 =>
  let w2 :=
    sendEventToUser (Message.senderId message) "message:status"
      (MessageStatusPayload id "delivered" targetUserId) now
      (mkWorld d2 (outbox w)) in
  let finalMessage := messages d2 !! id in
  (res 200 (DeliveredBody id (default [] (Message.deliveredTo <$> finalMessage))
                          updatedStatus), w2)
  end end end end.

(** The three-way status decision at the end of [markRead]. *)
Inductive ReadDecision := SetRead | SetDelivered | Keep.

(** POST /messages/:id/read *)
Definition markRead (user : option string) (id : string)
    (readByUserId : option string) (now : Z) (w : World) : Response * World :=
  match truthy user with
  | None => (res 401 (ErrorBody "Authentication required"), w)
  | Some userId =>
  let targetUserId := js_or readByUserId userId in
  match messages (db w) !! id with
  | None => (res 404 (ErrorBody "Message not found"), w)
  | Some message =>
  let alreadyRead := bool_decide (targetUserId ∈ Message.readBy message) in
  if alreadyRead
  then (res 200 (AlreadyBody "Message already marked as read" id), w)
  else
  let isDelivered :=
    bool_decide (targetUserId ∈ Message.deliveredTo message) in
  match Prisma.message_update id
          (λ m, rb ← Prisma.connect_user (db w) targetUserId
                         (Message.readBy m);
                dl ← (if isDelivered then Some (Message.deliveredTo m)
                      else Prisma.connect_user (db w) targetUserId
                             (Message.deliveredTo m));
                Some (Message.set_relations dl rb m))
          (db w) with
  | None => (res 500 (ErrorBody "Failed to mark message as read"), w)
  | Some d1 =>
  let decision :=
    match conversation_of (db w) message with
    | Some members =>
        let allRead :=
          match messages d1 !! id with
          | Some updatedMessage =>
              bool_decide (recipientCount members (Message.senderId message)
                           ≤ length (Message.readBy updatedMessage))%nat
          | None => false
          end in
        if allRead then SetRead
        else if bool_decide (Message.status message ≠ READ) then SetDelivered
        else Keep
    | None => Keep
    end in
  let updatedStatus :=
    match decision with
    | SetRead => READ
    | SetDelivered => DELIVERED
    | Keep => Message.status message
    end in
  match (match decision with
         | SetRead =>
             Prisma.message_update id
               (λ m, Some (Message.set_status READ m)) d1
         | SetDelivered =>
             Prisma.message_update id
               (λ m, Some (Message.set_status DELIVERED m)) d1
         | Keep => Some d1
         end) with
  | None => (res 500 (ErrorBody "Failed to mark message as read"),
             mkWorld d1 (outbox w))
  | Some d2 =>
  let w2 :=
    sendEventToUser (Message.senderId message) "message:status"
      (MessageStatusPayload id "read" targetUserId) now
      (mkWorld d2 (outbox w)) in
  let finalMessage := messages d2 !! id in
  (res 200 (ReadBody id (default [] (Message.readBy <$> finalMessage))
                     (default [] (Message.deliveredTo <$> finalMessage))
                     updatedStatus), w2)
  end end end end.

End MessageController.

(** ** livekitService.ts *)
Module LiveKitService.

Record t := mk {
  apiKey : string;
  apiSecret : string;
}.

(** [generateToken]: throws ([None]) when a credential is missing, and
    otherwise signs a grant for the room; the signed JWT is kept as the
    grant. *)
Definition generateToken (lk : t) (roomName participantIdentity : string)
    (participantName : option string) : option Token :=
  if bool_decide (apiKey lk = "" ∨ apiSecret lk = "")
  then None
  else Some (mkToken roomName participantIdentity participantName).

End LiveKitService.

(** ** callController.ts *)
Module CallController.

(** What the process is configured with: the LiveKit credentials and the
    values of the [CallType] enum, whose declaration is not under src/. *)
Record Env := mkEnv {
  livekit : LiveKitService.t;
  callTypes : list string;
}.

(** The names of the [CallStatus] enum; a string that is none of them is
    refused by the Prisma client. *)
Definition parseCallStatus (s : string) : option CallStatus :=
  if decide (s = "INITIATED") then Some INITIATED
  else if decide (s = "RINGING") then Some RINGING
  else if decide (s = "ACCEPTED") then Some ACCEPTED
  else if decide (s = "ENDED") then Some ENDED
  else if decide (s = "REJECTED") then Some REJECTED
  else if decide (s = "MISSED") then Some MISSED
  else if decide (s = "BUSY") then Some BUSY
  else None.

(** [prisma.call.create]: primary key on [id]; [type] must name a
    [CallType]. *)
Definition call_create (env : Env) (id : string) (c : Call.t) (d : Db)
    : option Db :=
  if bool_decide (calls d !! id = None ∧ Call.type c ∈ callTypes env)
  then Some (with_calls (<[id := c]> (calls d)) d)
  else None.

(** [prisma.call.update({ where: { id }, data })] *)
Definition call_update (id : string) (data : Call.t → Call.t) (d : Db)
    : option Db :=
  match calls d !! id with
  | Some c => Some (with_calls (<[id := data c]> (calls d)) d)
  | None => None
  end.

(** [`room-${callerId.substring(0, 8)}-${Date.now()}`].  [String.substring]
    counts bytes where JavaScript counts UTF-16 code units; the two agree
    on ASCII ids, which is what is stated about room names. *)
Definition roomId (callerId : string) (now : Z) : string :=
  "room-" +:+ String.substring 0 8 callerId +:+ "-" +:+ pretty now.

(** POST /calls/initiate.  [user] is [req.user.userId] as the [authenticate]
    middleware leaves it; [newId] is the id the store generates. *)
Definition initiateCall (env : Env)
    (user receiverId type conversationId : option string)
    (newId : string) (now : Z) (w : World) : Response * World :=
  match truthy receiverId, truthy type with
  | Some receiverId, Some type =>
  match user with
  | None => (res 500 (ErrorBody "Failed to initiate call"), w)
  | Some callerId =>
  let roomId := roomId callerId now in
  let call :=
    Call.mk callerId receiverId type conversationId roomId INITIATED
            None None None in
  match call_create env newId call (db w) with
  | None => (res 500 (ErrorBody "Failed to initiate call"), w)
  | Some d1 =>
  let caller := users d1 !! callerId in
  match LiveKitService.generateToken (livekit env) roomId callerId
          (User.name <$> caller) with
  | None => (res 500 (ErrorBody "Failed to initiate call"),
             mkWorld d1 (outbox w))
  | Some token =>
  let w2 :=
    sendEventToUser receiverId "call:incoming"
      (CallIncomingPayload newId ((λ u, (callerId, u)) <$> caller) type roomId
                           conversationId)
      now (mkWorld d1 (outbox w)) in
  (res 201 (CallBody newId call token), w2)
  end end end
  | _, _ => (res 400 (ErrorBody "Receiver and call type are required"), w)
  end.

(** POST /calls/accept *)
Definition acceptCall (env : Env) (user callId : option string) (now : Z)
    (w : World) : Response * World :=
  match callId with
  | None => (res 500 (ErrorBody "Failed to accept call"), w)
  | Some callId =>
  match calls (db w) !! callId with
  | None => (res 404 (ErrorBody "Call not found or unauthorized"), w)
  | Some call =>
  match user with
  | None => (res 404 (ErrorBody "Call not found or unauthorized"), w)
  | Some userId =>
  if bool_decide (Call.receiverId call ≠ userId)
  then (res 404 (ErrorBody "Call not found or unauthorized"), w)
  else
  match call_update callId
          (λ c, Call.mk (Call.callerId c) (Call.receiverId c) (Call.type c)
                        (Call.conversationId c) (Call.roomId c) ACCEPTED
                        (Some now) (Call.endTime c) (Call.duration c))
          (db w) with
  | None => (res 500 (ErrorBody "Failed to accept call"), w)
  | Some d1 =>
  let receiver := users d1 !! userId in
  match LiveKitService.generateToken (livekit env) (Call.roomId call) userId
          (User.name <$> receiver) with
  | None => (res 500 (ErrorBody "Failed to accept call"),
             mkWorld d1 (outbox w))
  | Some token =>
  let w2 :=
    sendEventToUser (Call.callerId call) "call:accepted"
      (CallAcceptedPayload callId userId) now (mkWorld d1 (outbox w)) in
  (res 200 (TokenBody token), w2)
  end end end end end.

(** POST /calls/end *)
Definition endCall (user callId status : option string) (now : Z)
    (w : World) : Response * World :=
  match callId with
  | None => (res 500 (ErrorBody "Failed to end call"), w)
  | Some callId =>
  match calls (db w) !! callId with
  | None => (res 404 (ErrorBody "Call not found"), w)
  | Some call =>
  let isCaller := bool_decide (Some (Call.callerId call) = user) in
  let isReceiver := bool_decide (Some (Call.receiverId call) = user) in
  if negb isCaller && negb isReceiver
  then (res 403 (ErrorBody "Unauthorized"), w)
  else
  let endTime := now in
  let duration :=
    match Call.startTime call with
    | Some startTime => ((endTime - startTime) / 1000)%Z
    | None => 0%Z
    end in
  let finalStatus := js_or status "ENDED" in
  match parseCallStatus finalStatus with
  | None => (res 500 (ErrorBody "Failed to end call"), w)
  | Some st =>
  match call_update callId
          (λ c, Call.mk (Call.callerId c) (Call.receiverId c) (Call.type c)
                        (Call.conversationId c) (Call.roomId c) st
                        (Call.startTime c) (Some endTime)
                        (match Call.startTime call with
                         | Some _ => Some duration
                         | None => None
                         end))
          (db w) with
  | None => (res 500 (ErrorBody "Failed to end call"), w)
  | Some d1 =>
  let targetId :=
    if isCaller then Call.receiverId call else Call.callerId call in
  let w2 :=
    sendEventToUser targetId "call:ended"
      (CallEndedPayload callId finalStatus duration) now
      (mkWorld d1 (outbox w)) in
  (res 200 SuccessBody, w2)
  end end end end.

(** POST /calls/ringing *)
Definition reportRinging (user callId : option string) (now : Z) (w : World)
    : Response * World :=
  match callId with
  | None => (res 500 (ErrorBody "Failed to report ringing"), w)
  | Some callId =>
  match calls (db w) !! callId with
  | None => (res 404 (ErrorBody "Call not found"), w)
  | Some call =>
  if bool_decide (Some (Call.receiverId call) ≠ user)
  then (res 404 (ErrorBody "Call not found"), w)
  else
  match call_update callId
          (λ c, Call.mk (Call.callerId c) (Call.receiverId c) (Call.type c)
                        (Call.conversationId c) (Call.roomId c) RINGING
                        (Call.startTime c) (Call.endTime c) (Call.duration c))
          (db w) with
  | None => (res 500 (ErrorBody "Failed to report ringing"), w)
  | Some d1 =>
  let w2 :=
    sendEventToUser (Call.callerId call) "call:ringing"
      (CallRingingPayload callId) now (mkWorld d1 (outbox w)) in
  (res 200 SuccessBody, w2)
  end end end.

End CallController.

(** ** Vocabulary of the properties *)

(** SENT < DELIVERED < READ *)
Definition status_rank (st : MessageStatus) : nat :=
  match st with
  | SENT => 0
  | DELIVERED => 1
  | READ => 2
  end.

Definition status_le (a b : MessageStatus) : Prop :=
  (status_rank a ≤ status_rank b)%nat.

(** The status of message [id] in a world. *)
Definition status_of (id : string) (w : World) : option MessageStatus :=
  Message.status <$> messages (db w) !! id.

Definition deliveredTo_of (id : string) (w : World) : list string :=
  default [] (Message.deliveredTo <$> messages (db w) !! id).

Definition readBy_of (id : string) (w : World) : list string :=
  default [] (Message.readBy <$> messages (db w) !! id).

(** What a delivery acknowledgment for [u] does to the message row, given
    the members of its conversation: a summary of [markDelivered], related to
    the handler by [markDelivered_run]. *)
Definition ack_delivered (members : option (list string)) (u : string)
    (m : Message.t) : Message.t :=
  if bool_decide (u ∈ Message.deliveredTo m) then m
  else
    let dl := (Message.deliveredTo m ++ [u])%list in
    let promoted :=
      match members with
      | Some ms =>
          bool_decide (MessageController.recipientCount ms (Message.senderId m)
                       ≤ length dl)%nat
      | None => false
      end in
    Message.mk (Message.senderId m) (Message.receiverId m)
      (Message.conversationId m) (Message.clientId m)
      (if promoted then DELIVERED else Message.status m) dl (Message.readBy m).

(** The same for a read acknowledgment, related to [markRead] by
    [markRead_run]. *)
Definition ack_read (members : option (list string)) (u : string)
    (m : Message.t) : Message.t :=
  if bool_decide (u ∈ Message.readBy m) then m
  else
    let rb := (Message.readBy m ++ [u])%list in
    let dl := if bool_decide (u ∈ Message.deliveredTo m)
              then Message.deliveredTo m
              else (Message.deliveredTo m ++ [u])%list in
    let st :=
      match members with
      | Some ms =>
          if bool_decide
               (MessageController.recipientCount ms (Message.senderId m)
                ≤ length rb)%nat
          then READ
          else if bool_decide (Message.status m ≠ READ) then DELIVERED
          else Message.status m
      | None => Message.status m
      end in
    Message.mk (Message.senderId m) (Message.receiverId m)
      (Message.conversationId m) (Message.clientId m) st dl rb.

(** The [message:status] event an acknowledgment sends to the sender. *)
Definition status_event (m : Message.t) (id kind u : string) (now : Z)
    : Event :=
  mkEvent (Message.senderId m) "message:status"
          (MessageStatusPayload id kind u) now.

(** Users acknowledging one after the other, each for themselves, at the
    given times. *)
Fixpoint deliverAll (id : string) (acks : list (string * Z)) (w : World)
    : World :=
  match acks with
  | [] => w
  | (u, now) :: rest =>
      deliverAll id rest
        (MessageController.markDelivered (Some u) id None now w).2
  end.

Fixpoint readAll (id : string) (acks : list (string * Z)) (w : World)
    : World :=
  match acks with
  | [] => w
  | (u, now) :: rest =>
      readAll id rest (MessageController.markRead (Some u) id None now w).2
  end.

(** The row after each of [acks] was acknowledged in turn. *)
Definition ack_delivered_all (members : option (list string))
    (acks : list (string * Z)) (m : Message.t) : Message.t :=
  foldl (λ m' a, ack_delivered members a.1 m') m acks.

Definition ack_read_all (members : option (list string))
    (acks : list (string * Z)) (m : Message.t) : Message.t :=
  foldl (λ m' a, ack_read members a.1 m') m acks.

(** Every reader of a message is recorded as a recipient of it. *)
Definition read_implies_delivered (w : World) : Prop :=
  ∀ id m, messages (db w) !! id = Some m →
          Message.readBy m ⊆ Message.deliveredTo m.

(** The message requests, and the world after a sequence of them. *)
Inductive Request :=
| SendMessage (user conversationId clientId text : option string)
    (attachments : option (list MessageController.Attachment))
    (newId : string) (now : Z)
| MarkDelivered (user : option string) (id : string)
    (toUserId : option string) (now : Z)
| MarkRead (user : option string) (id : string) (userId : option string)
    (now : Z).

Definition handle (q : Request) (w : World) : World :=
  match q with
  | SendMessage user conversationId clientId text attachments newId now =>
      (MessageController.sendMessage user conversationId clientId text
         attachments newId now w).2
  | MarkDelivered user id toUserId now =>
      (MessageController.markDelivered user id toUserId now w).2
  | MarkRead user id userId now =>
      (MessageController.markRead user id userId now w).2
  end.

Definition run (qs : list Request) (w : World) : World :=
  foldl (λ w' q, handle q w') w qs.

(** Terminal call states (spec, section 4.5). *)
Definition terminal (st : CallStatus) : bool :=
  match st with
  | ENDED | REJECTED | MISSED | BUSY => true
  | INITIATED | RINGING | ACCEPTED => false
  end.

(** The status of call [callId] in a world. *)
Definition call_status_of (callId : string) (w : World) : option CallStatus :=
  Call.status <$> calls (db w) !! callId.

(** The row [acceptCall] writes. *)
Definition accepted (now : Z) (c : Call.t) : Call.t :=
  Call.mk (Call.callerId c) (Call.receiverId c) (Call.type c)
          (Call.conversationId c) (Call.roomId c) ACCEPTED (Some now)
          (Call.endTime c) (Call.duration c).

(** The row [reportRinging] writes. *)
Definition ringing (c : Call.t) : Call.t :=
  Call.mk (Call.callerId c) (Call.receiverId c) (Call.type c)
          (Call.conversationId c) (Call.roomId c) RINGING (Call.startTime c)
          (Call.endTime c) (Call.duration c).

(** Seconds between a call's start, if it has one, and [endTime]. *)
Definition call_duration (endTime : Z) (c : Call.t) : Z :=
  match Call.startTime c with
  | Some startTime => ((endTime - startTime) / 1000)%Z
  | None => 0%Z
  end.

(** The row [endCall] writes. *)
Definition ended (st : CallStatus) (now : Z) (c : Call.t) : Call.t :=
  Call.mk (Call.callerId c) (Call.receiverId c) (Call.type c)
          (Call.conversationId c) (Call.roomId c) st (Call.startTime c)
          (Some now)
          (match Call.startTime c with
           | Some _ => Some (call_duration now c)
           | None => None
           end).

(** Whom [endCall] notifies: the other party. *)
Definition other_party (user : option string) (c : Call.t) : string :=
  if bool_decide (Some (Call.callerId c) = user)
  then Call.receiverId c else Call.callerId c.

(** ** A small deployment used by the examples

    Three users; a private conversation [c1] of alice and bob, a group [c2]
    of all three, and a conversation [solo] whose only member is alice. *)
Module Scenario.

Definition store : Db :=
  mkDb
    (list_to_map [("alice", User.mk "Alice" None);
                  ("bob", User.mk "Bob" None);
                  ("carol", User.mk "Carol" None)])
    (list_to_map [("c1", ["alice"; "bob"]);
                  ("c2", ["alice"; "bob"; "carol"]);
                  ("solo", ["alice"])])
    ∅ ∅.

Definition w0 : World := mkWorld store [].

(** alice sends "hi" to [c1]; the store names the row [m1]. *)
Definition sent : World :=
  (MessageController.sendMessage (Some "alice") (Some "c1") None (Some "hi")
     None "m1" 1000 w0).2.

(** bob, the only recipient, reads it. *)
Definition read : World :=
  (MessageController.markRead (Some "bob") "m1" None 2000 sent).2.

(** alice's own client then acknowledges delivery of [m1]. *)
Definition acked : World :=
  (MessageController.markDelivered (Some "alice") "m1" None 3000 read).2.

(** alice sends "hi" to the group [c2]. *)
Definition sent_group : World :=
  (MessageController.sendMessage (Some "alice") (Some "c2") None (Some "hi")
     None "m2" 1000 w0).2.

(** alice sends to the conversation she is alone in. *)
Definition sent_solo : Response * World :=
  MessageController.sendMessage (Some "alice") (Some "solo") None (Some "hi")
    None "m3" 1000 w0.

(** LiveKit is configured; the schema knows voice and video calls. *)
Definition env : CallController.Env :=
  CallController.mkEnv (LiveKitService.mk "key" "secret") ["VOICE"; "VIDEO"].

(** alice calls bob; the store names the row [k1]. *)
Definition called : Response * World :=
  CallController.initiateCall env (Some "alice") (Some "bob") (Some "VIDEO")
    None "k1" 1000 w0.

(** bob declines. *)
Definition rejected : Response * World :=
  CallController.endCall (Some "bob") (Some "k1") (Some "REJECTED") 2000
    called.2.

(** alice calls carol in the same millisecond as she calls bob. *)
Definition called_twice : Response * World :=
  CallController.initiateCall env (Some "alice") (Some "carol") (Some "VOICE")
    None "k2" 1000 called.2.

End Scenario.


(** ** Call requests as data

    The four routes of [callRoutes.ts], each behind [authenticate]. *)
Inductive CallRequest :=
| Initiate (user receiverId type conversationId : option string)
    (newId : string) (now : Z)
| Ringing (user callId : option string) (now : Z)
| Accept (user callId : option string) (now : Z)
| End (user callId status : option string) (now : Z).

Definition handleCall (env : CallController.Env) (q : CallRequest) (w : World)
    : Response * World :=
  match q with
  | Initiate user receiverId type conversationId newId now =>
      CallController.initiateCall env user receiverId type conversationId
        newId now w
  | Ringing user callId now => CallController.reportRinging user callId now w
  | Accept user callId now => CallController.acceptCall env user callId now w
  | End user callId status now =>
      CallController.endCall user callId status now w
  end.

(** [req.user.userId] of a call request. *)
Definition actor (q : CallRequest) : option string :=
  match q with
  | Initiate user _ _ _ _ _ => user
  | Ringing user _ _ => user
  | Accept user _ _ => user
  | End user _ _ _ => user
  end.

(** The world after a sequence of call requests. *)
Definition runCalls (env : CallController.Env) (qs : list CallRequest)
    (w : World) : World :=
  foldl (λ w' q, (handleCall env q w').2) w qs.

(** The columns of a call that identify it: parties, type, conversation and
    room. *)
Definition call_identity (c : Call.t)
    : string * string * string * option string * string :=
  (Call.callerId c, Call.receiverId c, Call.type c, Call.conversationId c,
   Call.roomId c).

(** A 2xx answer. *)
Definition succeeded (r : Response) : bool :=
  bool_decide (code r = 200 ∨ code r = 201).

(** The event each call route sends. *)
Definition call_event_name (q : CallRequest) : string :=
  match q with
  | Initiate _ _ _ _ _ _ => "call:incoming"
  | Ringing _ _ _ => "call:ringing"
  | Accept _ _ _ => "call:accepted"
  | End _ _ _ _ => "call:ended"
  end.

(** The LiveKit credentials are both set. *)
Definition configured (lk : LiveKitService.t) : Prop :=
  LiveKitService.apiKey lk ≠ "" ∧ LiveKitService.apiSecret lk ≠ "".

(** The row [initiateCall] creates. *)
Definition initiated (callerId receiver ty : string)
    (conversationId : option string) (now : Z) : Call.t :=
  Call.mk callerId receiver ty conversationId
          (CallController.roomId callerId now) INITIATED None None None.

(** The columns of a message that identify it. *)
Definition message_identity (m : Message.t)
    : string * string * option string * option string :=
  (Message.senderId m, Message.receiverId m, Message.conversationId m,
   Message.clientId m).

(** What holds of every message row the handlers produce: no duplicate
    acknowledgment, every reader is a recipient, the sender belongs to the
    message's conversation, and the status agrees with the lists. *)
Definition message_sound (d : Db) (m : Message.t) : Prop :=
  NoDup (Message.deliveredTo m)
  ∧ NoDup (Message.readBy m)
  ∧ Message.readBy m ⊆ Message.deliveredTo m
  ∧ ∃ members,
      MessageController.conversation_of d m = Some members
      ∧ Message.senderId m ∈ members
      ∧ (Message.status m = SENT → Message.readBy m = [])
      ∧ (Message.status m = DELIVERED → Message.deliveredTo m ≠ [])
      ∧ (Message.status m = READ →
         (MessageController.recipientCount members (Message.senderId m)
          ≤ length (Message.readBy m))%nat).

Definition store_sound (w : World) : Prop :=
  ∀ id m, messages (db w) !! id = Some m → message_sound (db w) m.

(** ** More of the example deployment *)
Module Examples.

(** The same process without LiveKit credentials. *)
Definition env_no_livekit : CallController.Env :=
  CallController.mkEnv (LiveKitService.mk "" "") ["VOICE"; "VIDEO"].

(** The call of [Scenario.called] as stored. *)
Definition k1 : Call.t := initiated "alice" "bob" "VIDEO" None 1000.

(** The messages of [Scenario.sent] and [Scenario.sent_group] as stored. *)
Definition m1 : Message.t :=
  Message.mk "alice" "bob" (Some "c1") None SENT [] [].

Definition m2 : Message.t :=
  Message.mk "alice" "bob" (Some "c2") None SENT [] [].

(** A store holding one message that belongs to no conversation. *)
Definition orphan : Message.t :=
  Message.mk "alice" "bob" None None SENT [] [].

Definition w_orphan : World :=
  mkWorld (with_messages {[ "m0" := orphan ]} Scenario.store) [].

(** alice sends to the group with a client id. *)
Definition sent_tagged : Response * World :=
  MessageController.sendMessage (Some "alice") (Some "c2") (Some "tag-1")
    (Some "hi") None "m4" 1000 Scenario.w0.

End Examples.

(** ** messageController.ts: reading a conversation page by page *)

(** A message as [getMessages] formats it. *)
Record MessageView := mkView {
  view_id : string;
  view_conversationId : string;
  view_senderId : string;
  view_receiverId : string;
  view_sender : option User.t;
  view_clientId : option string;
  view_status : MessageStatus;
  view_createdAt : string;
  view_deliveredTo : list string;
  view_readBy : list string;
}.

Inductive PageBody :=
| PageError (error : string)
| Page (messages : list MessageView) (limit : Z) (hasMore : bool)
    (nextCursor : option string).

Section Pagination.

(** The JavaScript built-ins the handler calls: [parseInt(s, 10)] and
    [new Date(s).getTime()], with [None] for [NaN], and
    [Date.prototype.toISOString]. *)
Variable parseInt : string → option Z.
Variable parseDate : string → option Z.
Variable toISOString : Z → string.

(** Column [createdAt] of table [messages], in milliseconds, by row id. *)
Variable createdAt : string → Z.

(** [orderBy: { createdAt: 'desc' }] *)
Definition newer_first (a b : string * Message.t) : Prop :=
  (createdAt b.1 ≤ createdAt a.1)%Z.

#[global] Instance newer_first_dec (a b : string * Message.t) :
  Decision (newer_first a b).
Proof. unfold newer_first. apply _. Defined.

(** [take]: the first [n] rows, or the last [-n] when [n] is negative. *)
Definition prisma_take {A} (n : Z) (l : list A) : list A :=
  if decide (0 ≤ n)%Z then take (Z.to_nat n) l
  else drop (length l - Z.to_nat (- n)) l.

(** [prisma.message.findMany] with [where: { conversationId, createdAt:
    { lt: beforeDate } }], [orderBy: { createdAt: 'desc' }] and [take].
    Rows created in the same millisecond come in the order of the scan,
    which the store does not promise. *)
Definition findMany_before (d : Db) (conversationId : string)
    (beforeDate limitNum : Z) : list (string * Message.t) :=
  prisma_take limitNum
    (merge_sort newer_first
       (filter (λ row, Message.conversationId row.2 = Some conversationId
                       ∧ (createdAt row.1 < beforeDate)%Z)
               (map_to_list (messages d)))).

(** One entry of [formattedMessages]. *)
Definition format_message (d : Db) (row : string * Message.t) : MessageView :=
  mkView row.1 (js_or (Message.conversationId row.2) "")
         (Message.senderId row.2) (Message.receiverId row.2)
         (users d !! Message.senderId row.2) (Message.clientId row.2)
         (Message.status row.2) (toISOString (createdAt row.1))
         (Message.deliveredTo row.2) (Message.readBy row.2).

(** GET /messages?conversationId=...&before=...&limit=...

    The conversation is loaded with its members before the query is parsed;
    a [limit] that is not a number reaches the store as [take: NaN], which
    is taken to be refused there and is answered 500 by the [catch]. *)
Definition getMessages (user conversationId before limit : option string)
    (now : Z) (w : World) : nat * PageBody :=
  match truthy user with
  | None => (401, PageError "Authentication required")
  | Some userId =>
  match truthy conversationId with
  | None => (400, PageError "conversationId is required")
  | Some cid =>
  match conversations (db w) !! cid with
  | None => (404, PageError "Conversation not found")
  | Some members =>
  if negb (bool_decide (userId ∈ members))
  then (403, PageError "You are not a member of this conversation")
  else
  let limitNum := (λ n, Z.min n 100) <$> parseInt (js_or limit "20") in
  let beforeDate :=
    match truthy before with
    | Some b => parseDate b
    | None => Some now
    end in
  match beforeDate with
  | None => (400, PageError "Invalid before timestamp")
  | Some beforeDate =>
  match limitNum with
  | None => (500, PageError "Failed to fetch messages")
  | Some limitNum =>
  let messages := findMany_before (db w) cid beforeDate limitNum in
  let formattedMessages := format_message (db w) <$> messages in
  let hasMore := bool_decide (Z.of_nat (length messages) = limitNum) in
  (200,
   Page formattedMessages limitNum hasMore
        (if hasMore then view_createdAt <$> last formattedMessages else None))
  end end end end end.

End Pagination.

Definition page_messages (b : PageBody) : list MessageView :=
  match b with
  | Page messages _ _ _ => messages
  | PageError _ => []
  end.

(** A conversation of four messages, two of them created in the same
    millisecond, read two at a time.  The built-ins are stand-ins defined on
    the strings the example uses; instants are printed in decimal. *)
Module Paging.

Definition createdAt (id : string) : Z :=
  if decide (id = "p1") then 3000
  else if decide (id = "p2") then 2000
  else if decide (id = "p3") then 2000
  else 1000.

Definition parseInt (s : string) : option Z :=
  if decide (s = "20") then Some 20%Z
  else if decide (s = "2") then Some 2%Z
  else None.

Definition toISOString (t : Z) : string := pretty t.

Definition parseDate (s : string) : option Z :=
  if decide (s = "3000") then Some 3000%Z
  else if decide (s = "2000") then Some 2000%Z
  else if decide (s = "1000") then Some 1000%Z
  else None.

Definition w : World :=
  mkWorld
    (with_messages
       (list_to_map [("p1", Examples.m1); ("p2", Examples.m1);
                     ("p3", Examples.m1); ("p4", Examples.m1)])
       Scenario.store) [].

(** alice asks for the two newest messages of [c1] ... *)
Definition first_page : nat * PageBody :=
  getMessages parseInt parseDate toISOString createdAt (Some "alice")
    (Some "c1") None (Some "2") 5000 w.

(** ... and then for what comes before the cursor she was given. *)
Definition second_page : nat * PageBody :=
  getMessages parseInt parseDate toISOString createdAt (Some "alice")
    (Some "c1") (Some "2000") None 6000 w.

End Paging.
(** * Properties *)

Import MessageController.

(** ** Delivery state machine *)

Lemma js_or_Some (a : option string) (b t : string) :
  truthy a = Some t → js_or a b = t.
Proof. unfold js_or. by intros ->. Qed.

Lemma js_or_None (a : option string) (b : string) :
  truthy a = None → js_or a b = b.
Proof. unfold js_or. by intros ->. Qed.

Lemma truthy_Some_inv (a : option string) (t : string) :
  truthy a = Some t ↔ a = Some t ∧ t ≠ "".
Proof.
  unfold truthy. destruct a as [s|]; [|split; [done|by intros [? _]]].
  case_decide; split; try done; intros; destruct_and?; simplify_eq; done.
Qed.

Lemma truthy_self (t : string) : t ≠ "" → truthy (Some t) = Some t.
Proof. intros. by apply truthy_Some_inv. Qed.

(** The handler on the path that records a new delivery acknowledgment. *)
Lemma markDelivered_run user id toUserId now w userId m :
  truthy user = Some userId →
  messages (db w) !! id = Some m →
  is_Some (users (db w) !! js_or toUserId userId) →
  let t := js_or toUserId userId in
  let m' := ack_delivered (conversation_of (db w) m) t m in
  markDelivered user id toUserId now w =
    if bool_decide (t ∈ Message.deliveredTo m)
    then (res 200 (AlreadyBody "Message already marked as delivered" id), w)
    else (res 200 (DeliveredBody id (Message.deliveredTo m')
                                 (Message.status m')),
          mkWorld (with_messages (<[id := m']> (messages (db w))) (db w))
                  (outbox w ++ [status_event m id "delivered" t now])%list).
Proof.
  intros Hu Hm [usr Husr] t m'. subst t m'.
  set (t := js_or toUserId userId) in *.
  unfold markDelivered, ack_delivered. rewrite Hu, Hm. fold t.
  case_bool_decide as Hin; [done|].
  unfold Prisma.message_update, Prisma.connect_user. rewrite Hm. simpl.
  rewrite Husr. simpl.
  unfold Prisma.connect. rewrite bool_decide_eq_false_2 by done.
  rewrite lookup_insert_eq. simpl.
  destruct (conversation_of (db w) m) as [members|]; simpl;
    [case_bool_decide; simpl|];
    rewrite ?insert_insert_eq, ?lookup_insert_eq; simpl;
    unfold with_messages; simpl; rewrite ?insert_insert_eq; done.
Qed.

(** The same handler when the target user has no row in [users]: the
    [connect] throws and nothing is written. *)
Lemma markDelivered_unknown_user user id toUserId now w userId m :
  truthy user = Some userId →
  messages (db w) !! id = Some m →
  users (db w) !! js_or toUserId userId = None →
  markDelivered user id toUserId now w =
    if bool_decide (js_or toUserId userId ∈ Message.deliveredTo m)
    then (res 200 (AlreadyBody "Message already marked as delivered" id), w)
    else (res 500 (ErrorBody "Failed to mark message as delivered"), w).
Proof.
  intros Hu Hm Husr. unfold markDelivered. rewrite Hu, Hm.
  case_bool_decide; [done|].
  unfold Prisma.message_update, Prisma.connect_user.
  rewrite Hm, Husr. done.
Qed.

Lemma markDelivered_unauthenticated user id toUserId now w :
  truthy user = None →
  markDelivered user id toUserId now w =
    (res 401 (ErrorBody "Authentication required"), w).
Proof. intros Hu. unfold markDelivered. by rewrite Hu. Qed.

Lemma markDelivered_not_found user id toUserId now w userId :
  truthy user = Some userId →
  messages (db w) !! id = None →
  markDelivered user id toUserId now w =
    (res 404 (ErrorBody "Message not found"), w).
Proof. intros Hu Hm. unfold markDelivered. by rewrite Hu, Hm. Qed.

(** The handler on the path that records a new read acknowledgment. *)
Lemma markRead_run user id readByUserId now w userId m :
  truthy user = Some userId →
  messages (db w) !! id = Some m →
  is_Some (users (db w) !! js_or readByUserId userId) →
  let t := js_or readByUserId userId in
  let m' := ack_read (conversation_of (db w) m) t m in
  markRead user id readByUserId now w =
    if bool_decide (t ∈ Message.readBy m)
    then (res 200 (AlreadyBody "Message already marked as read" id), w)
    else (res 200 (ReadBody id (Message.readBy m') (Message.deliveredTo m')
                            (Message.status m')),
          mkWorld (with_messages (<[id := m']> (messages (db w))) (db w))
                  (outbox w ++ [status_event m id "read" t now])%list).
Proof.
  intros Hu Hm [usr Husr] t m'. subst t m'.
  set (t := js_or readByUserId userId) in *.
  unfold markRead, ack_read. rewrite Hu, Hm. fold t.
  case_bool_decide as Hin; [done|].
  unfold Prisma.message_update, Prisma.connect_user. rewrite Hm. simpl.
  rewrite Husr. simpl.
  unfold Prisma.connect.
  rewrite (bool_decide_eq_false_2 (t ∈ Message.readBy m)) by done.
  destruct (conversation_of (db w) m) as [members|]; simpl;
    case_bool_decide as Hdl; simpl;
    rewrite ?(bool_decide_eq_false_2 (t ∈ Message.deliveredTo m)) by done;
    rewrite ?lookup_insert_eq; simpl;
    repeat (case_bool_decide; simpl);
    rewrite ?insert_insert_eq, ?lookup_insert_eq; simpl;
    unfold with_messages; simpl; rewrite ?insert_insert_eq;
    try done; destruct m; simpl in *; done.
Qed.

Lemma markRead_unknown_user user id readByUserId now w userId m :
  truthy user = Some userId →
  messages (db w) !! id = Some m →
  users (db w) !! js_or readByUserId userId = None →
  markRead user id readByUserId now w =
    if bool_decide (js_or readByUserId userId ∈ Message.readBy m)
    then (res 200 (AlreadyBody "Message already marked as read" id), w)
    else (res 500 (ErrorBody "Failed to mark message as read"), w).
Proof.
  intros Hu Hm Husr. unfold markRead. rewrite Hu, Hm.
  case_bool_decide; [done|].
  unfold Prisma.message_update, Prisma.connect_user.
  rewrite Hm, Husr. done.
Qed.

Lemma markRead_unauthenticated user id readByUserId now w :
  truthy user = None →
  markRead user id readByUserId now w =
    (res 401 (ErrorBody "Authentication required"), w).
Proof. intros Hu. unfold markRead. by rewrite Hu. Qed.

Lemma markRead_not_found user id readByUserId now w userId :
  truthy user = Some userId →
  messages (db w) !! id = None →
  markRead user id readByUserId now w =
    (res 404 (ErrorBody "Message not found"), w).
Proof. intros Hu Hm. unfold markRead. by rewrite Hu, Hm. Qed.

(** *** What an acknowledgment leaves in the message row *)

Lemma ack_delivered_deliveredTo members u m :
  Message.deliveredTo (ack_delivered members u m) =
    Prisma.connect u (Message.deliveredTo m).
Proof.
  unfold ack_delivered, Prisma.connect. case_bool_decide; done.
Qed.

Lemma ack_delivered_readBy members u m :
  Message.readBy (ack_delivered members u m) = Message.readBy m.
Proof. unfold ack_delivered. case_bool_decide; done. Qed.

Lemma ack_read_readBy members u m :
  Message.readBy (ack_read members u m) = Prisma.connect u (Message.readBy m).
Proof. unfold ack_read, Prisma.connect. case_bool_decide; done. Qed.

Lemma ack_read_deliveredTo members u m :
  Message.deliveredTo (ack_read members u m) =
    if bool_decide (u ∈ Message.readBy m) then Message.deliveredTo m
    else Prisma.connect u (Message.deliveredTo m).
Proof.
  unfold ack_read, Prisma.connect. repeat case_bool_decide; done.
Qed.

Lemma elem_of_connect (u v : string) (l : list string) :
  v ∈ Prisma.connect u l ↔ v = u ∨ v ∈ l.
Proof.
  unfold Prisma.connect. case_bool_decide as Hin.
  - split; [by right|]. by intros [->|?].
  - rewrite elem_of_app, list_elem_of_singleton. tauto.
Qed.

Lemma NoDup_connect (u : string) (l : list string) :
  NoDup l → NoDup (Prisma.connect u l).
Proof.
  intros Hl. unfold Prisma.connect. case_bool_decide; [done|].
  apply NoDup_app. split_and!; [done| |apply NoDup_singleton].
  intros x Hx ->%list_elem_of_singleton. done.
Qed.

Lemma ack_delivered_frame members u m :
  Message.senderId (ack_delivered members u m) = Message.senderId m
  ∧ Message.conversationId (ack_delivered members u m)
    = Message.conversationId m.
Proof. unfold ack_delivered. case_bool_decide; done. Qed.

Lemma ack_read_frame members u m :
  Message.senderId (ack_read members u m) = Message.senderId m
  ∧ Message.conversationId (ack_read members u m) = Message.conversationId m.
Proof. unfold ack_read. case_bool_decide; done. Qed.

(** C4.  [markDelivered] and [markRead] are idempotent: whatever the first
    call did, repeating the request (at any later time) leaves the world as
    the first call left it, so [deliveredTo], [readBy] and [status] of every
    message are unchanged, no entry is duplicated, and the log of emitted
    events gains no second [message:status]. *)
Theorem ack_idempotent user id target now now' w :
  (let w1 := (markDelivered user id target now w).2 in
   (markDelivered user id target now' w1).2 = w1)
  ∧ (let w1 := (markRead user id target now w).2 in
     (markRead user id target now' w1).2 = w1).
Proof.
  split; intros w1; subst w1.
  - destruct (truthy user) as [userId|] eqn:Hu;
      [|by rewrite (markDelivered_unauthenticated _ _ _ now),
             markDelivered_unauthenticated].
    destruct (messages (db w) !! id) as [m|] eqn:Hm;
      [|by rewrite (markDelivered_not_found _ _ _ now _ userId),
             (markDelivered_not_found _ _ _ _ _ userId)].
    destruct (users (db w) !! js_or target userId) as [usr|] eqn:Husr;
      [|rewrite (markDelivered_unknown_user _ _ _ now _ userId m) by done;
       case_bool_decide; cbn [snd];
       rewrite (markDelivered_unknown_user _ _ _ _ _ userId m) by done;
       by case_bool_decide].
    rewrite (markDelivered_run _ _ _ now w userId m) by done.
    case_bool_decide as Hin; cbn [snd].
    + rewrite (markDelivered_run _ _ _ now' w userId m) by done.
      by rewrite bool_decide_eq_true_2.
    + erewrite (markDelivered_run _ _ _ now' _ userId);
        cbn [snd db messages users with_messages];
        [|done|apply lookup_insert_eq|by rewrite Husr].
      rewrite bool_decide_eq_true_2; [done|].
      rewrite ack_delivered_deliveredTo. apply elem_of_connect. by left.
  - destruct (truthy user) as [userId|] eqn:Hu;
      [|by rewrite (markRead_unauthenticated _ _ _ now),
             markRead_unauthenticated].
    destruct (messages (db w) !! id) as [m|] eqn:Hm;
      [|by rewrite (markRead_not_found _ _ _ now _ userId),
             (markRead_not_found _ _ _ _ _ userId)].
    destruct (users (db w) !! js_or target userId) as [usr|] eqn:Husr;
      [|rewrite (markRead_unknown_user _ _ _ now _ userId m) by done;
       case_bool_decide; cbn [snd];
       rewrite (markRead_unknown_user _ _ _ _ _ userId m) by done;
       by case_bool_decide].
    rewrite (markRead_run _ _ _ now w userId m) by done.
    case_bool_decide as Hin; cbn [snd].
    + rewrite (markRead_run _ _ _ now' w userId m) by done.
      by rewrite bool_decide_eq_true_2.
    + erewrite (markRead_run _ _ _ now' _ userId);
        cbn [snd db messages users with_messages];
        [|done|apply lookup_insert_eq|by rewrite Husr].
      rewrite bool_decide_eq_true_2; [done|].
      rewrite ack_read_readBy. apply elem_of_connect. by left.
Qed.

(** The two relation lists stay duplicate-free under both handlers. *)
Lemma ack_delivered_NoDup members u m :
  NoDup (Message.deliveredTo m) →
  NoDup (Message.deliveredTo (ack_delivered members u m)).
Proof. rewrite ack_delivered_deliveredTo. apply NoDup_connect. Qed.

Lemma ack_read_NoDup members u m :
  NoDup (Message.deliveredTo m) → NoDup (Message.readBy m) →
  NoDup (Message.deliveredTo (ack_read members u m))
  ∧ NoDup (Message.readBy (ack_read members u m)).
Proof.
  intros Hd Hr. rewrite ack_read_deliveredTo, ack_read_readBy.
  split; [case_bool_decide; [done|]|]; by apply NoDup_connect.
Qed.

(** *** Read implies delivered *)

(** C5.  After a successful [markRead] for user [t] (the body's [userId], or
    the authenticated caller), [t] is in [deliveredTo] and in [readBy] of the
    message, whether or not [markDelivered] ran for [t] before.  The only
    premise is about the row the handler finds: if it already lists [t] as a
    reader, it lists [t] as a recipient, which [read_implies_delivered]
    guarantees for every world the three handlers produce. *)
Theorem markRead_implies_delivered user id readByUserId now w r w' userId :
  truthy user = Some userId →
  (js_or readByUserId userId ∈ readBy_of id w →
   js_or readByUserId userId ∈ deliveredTo_of id w) →
  markRead user id readByUserId now w = (r, w') →
  code r = 200 →
  js_or readByUserId userId ∈ deliveredTo_of id w'
  ∧ js_or readByUserId userId ∈ readBy_of id w'.
Proof.
  intros Hu Hinv Hrun Hcode. set (t := js_or readByUserId userId) in *.
  destruct (messages (db w) !! id) as [m|] eqn:Hm;
    [|rewrite (markRead_not_found _ _ _ _ _ userId) in Hrun by done;
      by simplify_eq].
  assert (Hr : readBy_of id w = Message.readBy m)
    by (unfold readBy_of; by rewrite Hm).
  assert (Hd : deliveredTo_of id w = Message.deliveredTo m)
    by (unfold deliveredTo_of; by rewrite Hm).
  destruct (users (db w) !! t) as [usr|] eqn:Husr.
  - rewrite (markRead_run _ _ _ _ _ userId m) in Hrun
      by (done || by rewrite Husr).
    fold t in Hrun. case_bool_decide as Hin; simplify_eq.
    + rewrite Hr, Hd in *. auto.
    + unfold deliveredTo_of, readBy_of. cbn [db messages with_messages].
      rewrite lookup_insert_eq. simpl.
      rewrite ack_read_deliveredTo, ack_read_readBy.
      rewrite bool_decide_eq_false_2 by done.
      split; apply elem_of_connect; by left.
  - rewrite (markRead_unknown_user _ _ _ _ _ userId m) in Hrun by done.
    fold t in Hrun. case_bool_decide as Hin; simplify_eq.
    rewrite Hr, Hd in *. auto.
Qed.

(** The world after an acknowledgment: unchanged, or one row rewritten by
    [ack_delivered] / [ack_read] and one event appended. *)
Lemma markDelivered_world user id toUserId now w :
  (markDelivered user id toUserId now w).2 = w
  ∨ ∃ userId m,
      truthy user = Some userId
      ∧ messages (db w) !! id = Some m
      ∧ is_Some (users (db w) !! js_or toUserId userId)
      ∧ (js_or toUserId userId ∉ Message.deliveredTo m)
      ∧ ((markDelivered user id toUserId now w).2 =
          mkWorld
            (with_messages
               (<[id := ack_delivered (conversation_of (db w) m)
                          (js_or toUserId userId) m]> (messages (db w)))
               (db w))
            (outbox w ++ [status_event m id "delivered"
                            (js_or toUserId userId) now])%list).
Proof.
  destruct (truthy user) as [userId|] eqn:Hu;
    [|left; by rewrite markDelivered_unauthenticated].
  destruct (messages (db w) !! id) as [m|] eqn:Hm;
    [|left; by rewrite (markDelivered_not_found _ _ _ _ _ userId)].
  destruct (users (db w) !! js_or toUserId userId) as [usr|] eqn:Husr.
  - rewrite (markDelivered_run _ _ _ _ _ userId m) by (done || by rewrite Husr).
    case_bool_decide; [by left|]. right. exists userId, m.
    rewrite Husr. by eauto 10.
  - left. rewrite (markDelivered_unknown_user _ _ _ _ _ userId m) by done.
    by case_bool_decide.
Qed.

Lemma markRead_world user id readByUserId now w :
  (markRead user id readByUserId now w).2 = w
  ∨ ∃ userId m,
      truthy user = Some userId
      ∧ messages (db w) !! id = Some m
      ∧ is_Some (users (db w) !! js_or readByUserId userId)
      ∧ (js_or readByUserId userId ∉ Message.readBy m)
      ∧ ((markRead user id readByUserId now w).2 =
          mkWorld
            (with_messages
               (<[id := ack_read (conversation_of (db w) m)
                          (js_or readByUserId userId) m]> (messages (db w)))
               (db w))
            (outbox w ++ [status_event m id "read"
                            (js_or readByUserId userId) now])%list).
Proof.
  destruct (truthy user) as [userId|] eqn:Hu;
    [|left; by rewrite markRead_unauthenticated].
  destruct (messages (db w) !! id) as [m|] eqn:Hm;
    [|left; by rewrite (markRead_not_found _ _ _ _ _ userId)].
  destruct (users (db w) !! js_or readByUserId userId) as [usr|] eqn:Husr.
  - rewrite (markRead_run _ _ _ _ _ userId m) by (done || by rewrite Husr).
    case_bool_decide; [by left|]. right. exists userId, m.
    rewrite Husr. by eauto 10.
  - left. rewrite (markRead_unknown_user _ _ _ _ _ userId m) by done.
    by case_bool_decide.
Qed.

Lemma read_implies_delivered_insert id m' w out :
  read_implies_delivered w →
  Message.readBy m' ⊆ Message.deliveredTo m' →
  read_implies_delivered
    (mkWorld (with_messages (<[id := m']> (messages (db w))) (db w)) out).
Proof.
  intros Hinv Hm' id2 m2. cbn [db messages with_messages].
  rewrite lookup_insert. case_decide; intros ?; simplify_eq; [done|].
  by eapply Hinv.
Qed.

(** Both acknowledgment handlers keep [read_implies_delivered]. *)
Lemma markDelivered_read_implies_delivered user id toUserId now w :
  read_implies_delivered w →
  read_implies_delivered (markDelivered user id toUserId now w).2.
Proof.
  intros Hinv.
  destruct (markDelivered_world user id toUserId now w)
    as [->|(userId & m & _ & Hm & _ & _ & ->)]; [done|].
  apply read_implies_delivered_insert; [done|].
  rewrite ack_delivered_deliveredTo, ack_delivered_readBy.
  intros x Hx. apply elem_of_connect. right. by eapply Hinv.
Qed.

Lemma markRead_read_implies_delivered user id readByUserId now w :
  read_implies_delivered w →
  read_implies_delivered (markRead user id readByUserId now w).2.
Proof.
  intros Hinv.
  destruct (markRead_world user id readByUserId now w)
    as [->|(userId & m & _ & Hm & _ & Hnin & ->)]; [done|].
  apply read_implies_delivered_insert; [done|].
  rewrite ack_read_deliveredTo, ack_read_readBy.
  rewrite bool_decide_eq_false_2 by done.
  intros x [->|Hx]%elem_of_connect; apply elem_of_connect; [by left|].
  right. by eapply Hinv.
Qed.

(** ** Sending: recipient resolution *)

Lemma foldl_sendEventToUser name p now (rs : list string) w :
  foldl (λ w' r, sendEventToUser r name p now w') w rs =
    mkWorld (db w) (outbox w ++ ((λ r, mkEvent r name p now) <$> rs))%list.
Proof.
  revert w. induction rs as [|r rs IH]; intros w; simpl.
  - rewrite app_nil_r. by destruct w.
  - rewrite IH. unfold sendEventToUser. simpl. by rewrite <- app_assoc.
Qed.

(** A [201] from [sendMessage]: the caller is a member of the conversation,
    a SENT row with empty relations is inserted under the new id, and one
    [message:new] goes to every entry of [recipientIds]. *)
Lemma sendMessage_created user conversationId clientId text attachments
    newId now w r w' :
  sendMessage user conversationId clientId text attachments newId now w
    = (r, w') →
  code r = 201 →
  ∃ userId cid members,
    truthy user = Some userId
    ∧ truthy conversationId = Some cid
    ∧ conversations (db w) !! cid = Some members
    ∧ userId ∈ members
    ∧ messages (db w) !! newId = None
    ∧ (w' =
       mkWorld
         (with_messages
            (<[newId := Message.mk userId (receiverId members userId)
                          (Some cid) (truthy clientId) SENT [] []]>
               (messages (db w)))
            (db w))
         (outbox w ++
          ((λ recipientId,
              mkEvent recipientId "message:new"
                (MessageNewPayload newId cid userId (truthy clientId) SENT)
                now) <$> recipientIds members userId))%list).
Proof.
  unfold sendMessage. intros Hrun Hcode.
  destruct (truthy user) as [userId|]; [|by simplify_eq].
  destruct (truthy conversationId) as [cid|]; [|by simplify_eq].
  case_bool_decide; [by simplify_eq|].
  destruct (conversations (db w) !! cid) as [members|] eqn:Hc;
    [|by simplify_eq].
  case_bool_decide as Hmem; simpl in Hrun; [|by simplify_eq].
  destruct (existsb _ _); [by simplify_eq|].
  unfold Prisma.message_create in Hrun.
  case_bool_decide as Hcreate; [|by simplify_eq].
  rewrite foldl_sendEventToUser in Hrun. simpl in Hrun.
  exists userId, cid, members. destruct Hcreate as (Hfresh & _).
  by simplify_eq.
Qed.

Lemma sendMessage_world user conversationId clientId text attachments
    newId now w :
  (sendMessage user conversationId clientId text attachments newId now w).2 = w
  ∨ ∃ m out,
      messages (db w) !! newId = None
      ∧ Message.deliveredTo m = [] ∧ Message.readBy m = []
      ∧ Message.status m = SENT
      ∧ ((sendMessage user conversationId clientId text attachments newId
            now w).2 =
         mkWorld (with_messages (<[newId := m]> (messages (db w))) (db w)) out).
Proof.
  unfold sendMessage.
  repeat (case_match; try by left).
  unfold Prisma.message_create in *. case_bool_decide as Hcreate; [|by left].
  destruct Hcreate as (Hfresh & _). simplify_eq.
  right. rewrite foldl_sendEventToUser. cbn [snd db outbox].
  eexists _, _. split_and!; [done| | | |reflexivity]; done.
Qed.

Lemma sendMessage_read_implies_delivered user conversationId clientId text
    attachments newId now w :
  read_implies_delivered w →
  read_implies_delivered
    (sendMessage user conversationId clientId text attachments newId now w).2.
Proof.
  intros Hinv.
  destruct (sendMessage_world user conversationId clientId text attachments
              newId now w) as [->|(m & out & _ & _ & Hrb & _ & ->)]; [done|].
  apply read_implies_delivered_insert; [done|].
  rewrite Hrb. apply list_subseteq_nil.
Qed.

(** Every world reached from a store without messages by sends and
    acknowledgments satisfies [read_implies_delivered]. *)
Lemma run_read_implies_delivered qs : ∀ w,
  read_implies_delivered w → read_implies_delivered (run qs w).
Proof.
  induction qs as [|q qs IH]; intros w Hinv; [done|].
  apply IH. destruct q; simpl.
  - by apply sendMessage_read_implies_delivered.
  - by apply markDelivered_read_implies_delivered.
  - by apply markRead_read_implies_delivered.
Qed.

Lemma reachable_read_implies_delivered qs w :
  messages (db w) = ∅ → read_implies_delivered (run qs w).
Proof.
  intros Hempty. apply run_read_implies_delivered.
  intros id m Hm. rewrite Hempty, lookup_empty in Hm. done.
Qed.

Lemma read_implies_delivered_of id w u :
  read_implies_delivered w → u ∈ readBy_of id w → u ∈ deliveredTo_of id w.
Proof.
  unfold readBy_of, deliveredTo_of. intros Hinv.
  destruct (messages (db w) !! id) as [m|] eqn:Hm; simpl; [|done].
  apply (Hinv id m Hm).
Qed.

Lemma markRead_implies_delivered_witness :
  "carol" ∈ deliveredTo_of "m2"
    (markRead (Some "carol") "m2" None 2000 Scenario.sent_group).2
  ∧ "carol" ∈ readBy_of "m2"
      (markRead (Some "carol") "m2" None 2000 Scenario.sent_group).2.
Proof.
  apply (markRead_implies_delivered (Some "carol") "m2" None 2000
           Scenario.sent_group
           (markRead (Some "carol") "m2" None 2000 Scenario.sent_group).1
           (markRead (Some "carol") "m2" None 2000 Scenario.sent_group).2
           "carol").
  - vm_compute; reflexivity.
  - apply read_implies_delivered_of.
    apply (reachable_read_implies_delivered
             [SendMessage (Some "alice") (Some "c2") None (Some "hi") None
                "m2" 1000] Scenario.w0).
    reflexivity.
  - vm_compute; reflexivity.
  - vm_compute; reflexivity.
Defined.

(** C9 (as amended).  In a conversation whose only member is the sender, a
    successful send stores the sender as the message's [receiverId] (the
    fall-back to [members[0]]), while the recipient list used for delivery,
    the members other than the sender, is empty: no [message:new] event is
    sent. *)
Theorem sole_member_resolution user conversationId clientId text attachments
    newId now w r w' userId cid :
  truthy user = Some userId →
  truthy conversationId = Some cid →
  conversations (db w) !! cid = Some [userId] →
  sendMessage user conversationId clientId text attachments newId now w
    = (r, w') →
  code r = 201 →
  receiverId [userId] userId = userId
  ∧ (Message.receiverId <$> messages (db w') !! newId) = Some userId
  ∧ recipientIds [userId] userId = []
  ∧ outbox w' = outbox w.
Proof.
  intros Hu Hc Hmembers Hrun Hcode.
  destruct (sendMessage_created _ _ _ _ _ _ _ _ _ _ Hrun Hcode)
    as (userId' & cid' & members & Hu' & Hc' & Hmembers' & _ & _ & ->).
  simplify_eq.
  assert (Hrecv : receiverId [userId] userId = userId).
  { unfold receiverId. simpl.
    rewrite decide_False by (intros Hne; by apply Hne).
    simpl. apply truthy_Some_inv in Hu as [_ Hne].
    unfold js_or. by rewrite truthy_self. }
  assert (Hrcp : recipientIds [userId] userId = []).
  { unfold recipientIds.
    rewrite filter_cons_False by (intros Hne; by apply Hne).
    done. }
  split_and!; [done| |done|].
  - cbn [db messages with_messages]. rewrite lookup_insert_eq. simpl.
    by rewrite Hrecv.
  - cbn [outbox]. rewrite Hrcp. simpl. by rewrite app_nil_r.
Qed.

Lemma sole_member_resolution_witness :
  receiverId ["alice"] "alice" = "alice"
  ∧ (Message.receiverId <$> messages (db Scenario.sent_solo.2) !! "m3")
    = Some "alice"
  ∧ recipientIds ["alice"] "alice" = []
  ∧ outbox Scenario.sent_solo.2 = outbox Scenario.w0.
Proof.
  apply (sole_member_resolution (Some "alice") (Some "solo") None (Some "hi")
           None "m3" 1000 Scenario.w0 Scenario.sent_solo.1
           Scenario.sent_solo.2 "alice" "solo");
    vm_compute; reflexivity.
Defined.

(** C9 (as stated) fails: alice sends to the conversation she is alone in,
    the send succeeds, and the recipient list handed to delivery is empty,
    not the one-element list of the sender; nothing is delivered. *)
Lemma sole_member_recipients_empty :
  conversations (db Scenario.w0) !! "solo" = Some ["alice"]
  ∧ code Scenario.sent_solo.1 = 201
  ∧ recipientIds ["alice"] "alice" ≠ ["alice"]
  ∧ outbox Scenario.sent_solo.2 = [].
Proof. vm_compute. split_and!; done. Qed.

(** ** Promotion once every recipient has acknowledged *)

(** One user acknowledging for themselves rewrites the row by
    [ack_delivered] / [ack_read] and leaves users and conversations alone. *)
Lemma markDelivered_self_step id u now w m :
  u ≠ "" →
  is_Some (users (db w) !! u) →
  messages (db w) !! id = Some m →
  messages (db (markDelivered (Some u) id None now w).2) !! id
    = Some (ack_delivered (conversation_of (db w) m) u m)
  ∧ users (db (markDelivered (Some u) id None now w).2) = users (db w)
  ∧ conversations (db (markDelivered (Some u) id None now w).2)
    = conversations (db w).
Proof.
  intros Hu Husr Hm.
  rewrite (markDelivered_run _ _ _ _ _ u m) by (done || by apply truthy_self).
  rewrite js_or_None by done.
  case_bool_decide as Hin;
    cbn [snd db messages users conversations with_messages].
  - unfold ack_delivered. by rewrite bool_decide_eq_true_2.
  - by rewrite lookup_insert_eq.
Qed.

Lemma markRead_self_step id u now w m :
  u ≠ "" →
  is_Some (users (db w) !! u) →
  messages (db w) !! id = Some m →
  messages (db (markRead (Some u) id None now w).2) !! id
    = Some (ack_read (conversation_of (db w) m) u m)
  ∧ users (db (markRead (Some u) id None now w).2) = users (db w)
  ∧ conversations (db (markRead (Some u) id None now w).2)
    = conversations (db w).
Proof.
  intros Hu Husr Hm.
  rewrite (markRead_run _ _ _ _ _ u m) by (done || by apply truthy_self).
  rewrite js_or_None by done.
  case_bool_decide as Hin;
    cbn [snd db messages users conversations with_messages].
  - unfold ack_read. by rewrite bool_decide_eq_true_2.
  - by rewrite lookup_insert_eq.
Qed.

Lemma conversation_of_frame d d' m m' :
  conversations d' = conversations d →
  Message.conversationId m' = Message.conversationId m →
  conversation_of d' m' = conversation_of d m.
Proof. unfold conversation_of. by intros -> ->. Qed.

(** A run of acknowledgments acts on the row as the fold of the row
    summaries, with the members read from the (unchanging) conversation. *)
Lemma deliverAll_row id acks : ∀ w m,
  messages (db w) !! id = Some m →
  Forall (λ a, a.1 ≠ "" ∧ is_Some (users (db w) !! a.1)) acks →
  messages (db (deliverAll id acks w)) !! id
    = Some (ack_delivered_all (conversation_of (db w) m) acks m)
  ∧ users (db (deliverAll id acks w)) = users (db w)
  ∧ conversations (db (deliverAll id acks w)) = conversations (db w).
Proof.
  induction acks as [|[u now] rest IH]; intros w m Hm Hacks; [done|].
  apply Forall_cons in Hacks as [[Hu Husr] Hrest]. simpl in Hu, Husr.
  destruct (markDelivered_self_step id u now w m Hu Husr Hm)
    as (Hm1 & Hu1 & Hc1).
  cbn [deliverAll ack_delivered_all foldl fst].
  destruct (IH _ _ Hm1) as (Hrow & Husers & Hconvs).
  { by rewrite Hu1. }
  rewrite Hrow, Husers, Hconvs, Hu1, Hc1. split_and!; [|done..].
  f_equal. unfold ack_delivered_all.
  rewrite (conversation_of_frame (db w) _ m); [done|done|].
  apply ack_delivered_frame.
Qed.

Lemma readAll_row id acks : ∀ w m,
  messages (db w) !! id = Some m →
  Forall (λ a, a.1 ≠ "" ∧ is_Some (users (db w) !! a.1)) acks →
  messages (db (readAll id acks w)) !! id
    = Some (ack_read_all (conversation_of (db w) m) acks m)
  ∧ users (db (readAll id acks w)) = users (db w)
  ∧ conversations (db (readAll id acks w)) = conversations (db w).
Proof.
  induction acks as [|[u now] rest IH]; intros w m Hm Hacks; [done|].
  apply Forall_cons in Hacks as [[Hu Husr] Hrest]. simpl in Hu, Husr.
  destruct (markRead_self_step id u now w m Hu Husr Hm)
    as (Hm1 & Hu1 & Hc1).
  cbn [readAll ack_read_all foldl fst].
  destruct (IH _ _ Hm1) as (Hrow & Husers & Hconvs).
  { by rewrite Hu1. }
  rewrite Hrow, Husers, Hconvs, Hu1, Hc1. split_and!; [|done..].
  f_equal. unfold ack_read_all.
  rewrite (conversation_of_frame (db w) _ m); [done|done|].
  apply ack_read_frame.
Qed.

(** *** The fold of delivery acknowledgments *)

Lemma ack_delivered_all_cons members a acks m :
  ack_delivered_all members (a :: acks) m
  = ack_delivered_all members acks (ack_delivered members a.1 m).
Proof. done. Qed.

Lemma ack_delivered_all_mono members acks : ∀ m x,
  x ∈ Message.deliveredTo m →
  x ∈ Message.deliveredTo (ack_delivered_all members acks m).
Proof.
  induction acks as [|a rest IH]; intros m x Hx; [done|].
  rewrite ack_delivered_all_cons. apply IH.
  rewrite ack_delivered_deliveredTo. apply elem_of_connect. by right.
Qed.

Lemma ack_delivered_all_covers members acks : ∀ m u,
  u ∈ acks.*1 →
  u ∈ Message.deliveredTo (ack_delivered_all members acks m).
Proof.
  induction acks as [|a rest IH]; intros m u Hu; [by apply elem_of_nil in Hu|].
  rewrite ack_delivered_all_cons.
  rewrite fmap_cons in Hu. apply elem_of_cons in Hu as [->|Hu]; [|by apply IH].
  apply ack_delivered_all_mono.
  rewrite ack_delivered_deliveredTo. apply elem_of_connect. by left.
Qed.

Lemma ack_delivered_all_noop members acks : ∀ m,
  Forall (λ a, a.1 ∈ Message.deliveredTo m) acks →
  ack_delivered_all members acks m = m.
Proof.
  induction acks as [|a rest IH]; intros m Hall; [done|].
  apply Forall_cons in Hall as [Ha Hrest].
  rewrite ack_delivered_all_cons.
  assert (ack_delivered members a.1 m = m) as ->; [|by apply IH].
  unfold ack_delivered. by rewrite bool_decide_eq_true_2.
Qed.

(** If at least one acknowledgment of the run is new and the run ends with
    [deliveredTo] at or above the threshold, the run ends in DELIVERED. *)
Lemma ack_delivered_all_status ms acks : ∀ m,
  Exists (λ a, a.1 ∉ Message.deliveredTo m) acks →
  (recipientCount ms (Message.senderId m)
   ≤ length (Message.deliveredTo (ack_delivered_all (Some ms) acks m)))%nat →
  Message.status (ack_delivered_all (Some ms) acks m) = DELIVERED.
Proof.
  induction acks as [|a rest IH]; intros m Hnew Hlen;
    [by apply Exists_nil in Hnew|].
  rewrite ack_delivered_all_cons in *.
  set (m1 := ack_delivered (Some ms) a.1 m) in *.
  assert (Hsender : Message.senderId m1 = Message.senderId m)
    by apply ack_delivered_frame.
  destruct (decide (Exists (λ b, b.1 ∉ Message.deliveredTo m1) rest))
    as [Hlater|Hnone].
  { apply IH; [done|]. by rewrite Hsender. }
  assert (Hall : Forall (λ b, b.1 ∈ Message.deliveredTo m1) rest).
  { apply not_Exists_Forall in Hnone; [|apply _].
    eapply Forall_impl; [exact Hnone|]. intros b Hb. simpl in Hb.
    by apply dec_stable. }
  rewrite (ack_delivered_all_noop _ _ _ Hall) in *.
  assert (Ha : a.1 ∉ Message.deliveredTo m).
  { apply Exists_cons in Hnew as [Ha|Hb]; [done|].
    apply Exists_exists in Hb as (b & Hb & Hbm).
    rewrite Forall_forall in Hall. specialize (Hall b Hb).
    subst m1. rewrite ack_delivered_deliveredTo in Hall.
    apply elem_of_connect in Hall as [Heq|?]; [|done]. by rewrite <- Heq. }
  subst m1. unfold ack_delivered in *.
  rewrite bool_decide_eq_false_2 in * by done. simpl in *.
  by rewrite bool_decide_eq_true_2.
Qed.

(** *** The fold of read acknowledgments *)

Lemma ack_read_all_cons members a acks m :
  ack_read_all members (a :: acks) m
  = ack_read_all members acks (ack_read members a.1 m).
Proof. done. Qed.

Lemma ack_read_all_mono members acks : ∀ m x,
  x ∈ Message.readBy m →
  x ∈ Message.readBy (ack_read_all members acks m).
Proof.
  induction acks as [|a rest IH]; intros m x Hx; [done|].
  rewrite ack_read_all_cons. apply IH.
  rewrite ack_read_readBy. apply elem_of_connect. by right.
Qed.

Lemma ack_read_all_covers members acks : ∀ m u,
  u ∈ acks.*1 →
  u ∈ Message.readBy (ack_read_all members acks m).
Proof.
  induction acks as [|a rest IH]; intros m u Hu; [by apply elem_of_nil in Hu|].
  rewrite ack_read_all_cons.
  rewrite fmap_cons in Hu. apply elem_of_cons in Hu as [->|Hu]; [|by apply IH].
  apply ack_read_all_mono.
  rewrite ack_read_readBy. apply elem_of_connect. by left.
Qed.

Lemma ack_read_all_noop members acks : ∀ m,
  Forall (λ a, a.1 ∈ Message.readBy m) acks →
  ack_read_all members acks m = m.
Proof.
  induction acks as [|a rest IH]; intros m Hall; [done|].
  apply Forall_cons in Hall as [Ha Hrest].
  rewrite ack_read_all_cons.
  assert (ack_read members a.1 m = m) as ->; [|by apply IH].
  unfold ack_read. by rewrite bool_decide_eq_true_2.
Qed.

Lemma ack_read_all_status ms acks : ∀ m,
  Exists (λ a, a.1 ∉ Message.readBy m) acks →
  (recipientCount ms (Message.senderId m)
   ≤ length (Message.readBy (ack_read_all (Some ms) acks m)))%nat →
  Message.status (ack_read_all (Some ms) acks m) = READ.
Proof.
  induction acks as [|a rest IH]; intros m Hnew Hlen;
    [by apply Exists_nil in Hnew|].
  rewrite ack_read_all_cons in *.
  set (m1 := ack_read (Some ms) a.1 m) in *.
  assert (Hsender : Message.senderId m1 = Message.senderId m)
    by apply ack_read_frame.
  destruct (decide (Exists (λ b, b.1 ∉ Message.readBy m1) rest))
    as [Hlater|Hnone].
  { apply IH; [done|]. by rewrite Hsender. }
  assert (Hall : Forall (λ b, b.1 ∈ Message.readBy m1) rest).
  { apply not_Exists_Forall in Hnone; [|apply _].
    eapply Forall_impl; [exact Hnone|]. intros b Hb. simpl in Hb.
    by apply dec_stable. }
  rewrite (ack_read_all_noop _ _ _ Hall) in *.
  assert (Ha : a.1 ∉ Message.readBy m).
  { apply Exists_cons in Hnew as [Ha|Hb]; [done|].
    apply Exists_exists in Hb as (b & Hb & Hbm).
    rewrite Forall_forall in Hall. specialize (Hall b Hb).
    subst m1. rewrite ack_read_readBy in Hall.
    apply elem_of_connect in Hall as [Heq|?]; [|done]. by rewrite <- Heq. }
  subst m1. unfold ack_read in *.
  rewrite (bool_decide_eq_false_2 (a.1 ∈ Message.readBy m)) in * by done.
  simpl in *. by rewrite bool_decide_eq_true_2.
Qed.


Lemma covers_length (us l : list string) :
  NoDup us → (∀ u, u ∈ us → u ∈ l) → (length us ≤ length l)%nat.
Proof. intros Hnd Hsub. by apply submseteq_length, NoDup_submseteq. Qed.






(** ** Status order *)

(** [markRead] never lowers the status: its DELIVERED branch is guarded by
    [updatedStatus !== READ]. *)
Lemma ack_read_status_le members u m :
  status_le (Message.status m) (Message.status (ack_read members u m)).
Proof.
  unfold ack_read, status_le. case_bool_decide; [done|].
  destruct members as [ms|]; simpl; [|done].
  repeat case_bool_decide; destruct (Message.status m); simpl; try lia; done.
Qed.

Lemma markRead_status_monotone user id readByUserId now w st :
  status_of id w = Some st →
  ∃ st', status_of id (markRead user id readByUserId now w).2 = Some st'
         ∧ status_le st st'.
Proof.
  intros Hst.
  destruct (markRead_world user id readByUserId now w)
    as [->|(userId & m & _ & Hm & _ & _ & ->)].
  - exists st. split; [done|]. unfold status_le. lia.
  - unfold status_of in *. rewrite Hm in Hst. simplify_eq/=.
    rewrite lookup_insert_eq. simpl. eexists. split; [done|].
    apply ack_read_status_le.
Qed.

(** [markDelivered] has no such guard: whenever a new delivery
    acknowledgment brings [deliveredTo] to the threshold, the status becomes
    DELIVERED, whatever it was. *)
Lemma markDelivered_overwrites_status user id toUserId now w userId m members :
  truthy user = Some userId →
  messages (db w) !! id = Some m →
  is_Some (users (db w) !! js_or toUserId userId) →
  js_or toUserId userId ∉ Message.deliveredTo m →
  conversation_of (db w) m = Some members →
  (recipientCount members (Message.senderId m)
   ≤ S (length (Message.deliveredTo m)))%nat →
  status_of id (markDelivered user id toUserId now w).2 = Some DELIVERED.
Proof.
  intros Hu Hm Husr Hnin Hconv Hrc.
  rewrite (markDelivered_run _ _ _ _ _ userId m) by done.
  rewrite bool_decide_eq_false_2 by done.
  unfold status_of. cbn [snd db messages with_messages].
  rewrite lookup_insert_eq. simpl. f_equal.
  unfold ack_delivered. rewrite bool_decide_eq_false_2 by done.
  rewrite Hconv. simpl. rewrite bool_decide_eq_true_2; [done|].
  rewrite length_app. simpl. lia.
Qed.

(** C1 fails on the code.  alice sends [m1] to bob; bob reads it, which
    makes the status READ; alice's own client then acknowledges delivery:
    [deliveredTo] reaches the recipient count and [markDelivered] writes
    DELIVERED over READ. *)
Theorem markDelivered_downgrades_read :
  status_of "m1" Scenario.sent = Some SENT
  ∧ status_of "m1" Scenario.read = Some READ
  ∧ deliveredTo_of "m1" Scenario.read = ["bob"]
  ∧ (∃ deliveredTo,
       (MessageController.markDelivered (Some "alice") "m1" None 3000
          Scenario.read).1
       = res 200 (DeliveredBody "m1" deliveredTo DELIVERED)
       ∧ deliveredTo ≡ₚ ["alice"; "bob"])
  ∧ status_of "m1" Scenario.acked = Some DELIVERED
  ∧ ¬ status_le READ DELIVERED.
Proof.
  split_and!; try (vm_compute; reflexivity).
  - exists ["bob"; "alice"]. split; [vm_compute; reflexivity|apply perm_swap].
  - unfold status_le. simpl. lia.
Qed.

(** ** Whose acknowledgment is recorded *)

(** C10.  The acknowledgment is recorded for the user id of the request body
    ([toUserId], resp. [userId]) when it is given (and non-empty), and for
    the authenticated caller otherwise.  Nothing relates that target to the
    conversation's members, to the sender or to the caller: the only
    premises are that the caller is authenticated, the message exists and
    the target has a row in [users] (the join tables reference it).  The
    recorded users are compared up to order, which the store does not
    promise. *)
Theorem ack_recorded_for_target user id target now w userId m :
  truthy user = Some userId →
  messages (db w) !! id = Some m →
  is_Some (users (db w) !! js_or target userId) →
  (∀ t, truthy target = Some t → js_or target userId = t)
  ∧ (truthy target = None → js_or target userId = userId)
  ∧ (js_or target userId ∉ Message.deliveredTo m →
     code (markDelivered user id target now w).1 = 200
     ∧ deliveredTo_of id (markDelivered user id target now w).2
       ≡ₚ js_or target userId :: Message.deliveredTo m
     ∧ outbox (markDelivered user id target now w).2
       = (outbox w ++ [status_event m id "delivered"
                         (js_or target userId) now])%list)
  ∧ (js_or target userId ∉ Message.readBy m →
     code (markRead user id target now w).1 = 200
     ∧ readBy_of id (markRead user id target now w).2
       ≡ₚ js_or target userId :: Message.readBy m
     ∧ outbox (markRead user id target now w).2
       = (outbox w ++ [status_event m id "read"
                         (js_or target userId) now])%list).
Proof.
  intros Hu Hm Husr. split_and!.
  - intros t Ht. by apply js_or_Some.
  - apply js_or_None.
  - intros Hnin.
    rewrite (markDelivered_run _ _ _ _ _ userId m) by done.
    rewrite bool_decide_eq_false_2 by done.
    unfold deliveredTo_of. cbn [fst snd code db messages outbox with_messages].
    rewrite lookup_insert_eq. simpl.
    rewrite ack_delivered_deliveredTo. unfold Prisma.connect.
    rewrite bool_decide_eq_false_2 by done.
    split_and!; [done| |done]. by rewrite Permutation_app_comm.
  - intros Hnin.
    rewrite (markRead_run _ _ _ _ _ userId m) by done.
    rewrite bool_decide_eq_false_2 by done.
    unfold readBy_of. cbn [fst snd code db messages outbox with_messages].
    rewrite lookup_insert_eq. simpl.
    rewrite ack_read_readBy. unfold Prisma.connect.
    rewrite bool_decide_eq_false_2 by done.
    split_and!; [done| |done]. by rewrite Permutation_app_comm.
Qed.

Lemma ack_recorded_for_target_witness :
  code (markDelivered (Some "carol") "m1" (Some "alice") 2000 Scenario.sent).1
    = 200
  ∧ deliveredTo_of "m1"
      (markDelivered (Some "carol") "m1" (Some "alice") 2000 Scenario.sent).2
    ≡ₚ ["alice"].
Proof.
  destruct (ack_recorded_for_target (Some "carol") "m1" (Some "alice") 2000
              Scenario.sent "carol"
              (Message.mk "alice" "bob" (Some "c1") None SENT [] []))
    as (_ & _ & Hd & _).
  - vm_compute; reflexivity.
  - vm_compute; reflexivity.
  - eexists. vm_compute. reflexivity.
  - destruct Hd as (Hcode & Hdl & _); [simpl; apply not_elem_of_nil|].
    split; [exact Hcode|exact Hdl].
Defined.

(** The target need not belong to the conversation: bob acknowledges [m1]
    on behalf of carol, who is not a member of [c1]. *)
Lemma ack_for_non_member :
  ("carol" ∉ ["alice"; "bob"])
  ∧ (markDelivered (Some "bob") "m1" (Some "carol") 2000 Scenario.sent).1
    = res 200 (DeliveredBody "m1" ["carol"] DELIVERED)
  ∧ (markRead (Some "bob") "m1" (Some "carol") 2000 Scenario.sent).1
    = res 200 (ReadBody "m1" ["carol"] ["carol"] READ).
Proof.
  split_and!; [|vm_compute; reflexivity..].
  apply (bool_decide_unpack _). vm_compute. exact I.
Qed.

(** ** Call signalling *)

Import CallController.

Lemma endCall_run user callId status now w c st :
  calls (db w) !! callId = Some c →
  user = Some (Call.callerId c) ∨ user = Some (Call.receiverId c) →
  parseCallStatus (js_or status "ENDED") = Some st →
  endCall user (Some callId) status now w =
    (res 200 SuccessBody,
     mkWorld (with_calls (<[callId := ended st now c]> (calls (db w))) (db w))
             (outbox w ++
              [mkEvent (other_party user c) "call:ended"
                 (CallEndedPayload callId (js_or status "ENDED")
                    (call_duration now c)) now])%list).
Proof.
  intros Hc Hactor Hst. unfold endCall. rewrite Hc.
  assert (negb (bool_decide (Some (Call.callerId c) = user))
          && negb (bool_decide (Some (Call.receiverId c) = user)) = false)
    as ->.
  { destruct Hactor as [-> | ->].
    - by rewrite bool_decide_eq_true_2.
    - rewrite (bool_decide_eq_true_2 (Some (Call.receiverId c) = _)) by done.
      by rewrite andb_false_r. }
  rewrite Hst. unfold call_update. rewrite Hc.
  unfold sendEventToUser, ended, other_party, call_duration. simpl.
  done.
Qed.

Lemma endCall_refused user callId status now w :
  (calls (db w) !! callId = None
   ∨ ∃ c, calls (db w) !! callId = Some c
          ∧ user ≠ Some (Call.callerId c) ∧ user ≠ Some (Call.receiverId c)) →
  (endCall user (Some callId) status now w).2 = w
  ∧ (code (endCall user (Some callId) status now w).1 = 404
     ∨ code (endCall user (Some callId) status now w).1 = 403).
Proof.
  unfold endCall. intros [Hc|(c & Hc & Hn1 & Hn2)]; rewrite Hc; [by auto|].
  rewrite !bool_decide_eq_false_2 by done. simpl. by auto.
Qed.

Lemma reportRinging_run user callId now w c :
  calls (db w) !! callId = Some c →
  user = Some (Call.receiverId c) →
  reportRinging user (Some callId) now w =
    (res 200 SuccessBody,
     mkWorld (with_calls (<[callId := ringing c]> (calls (db w))) (db w))
             (outbox w ++
              [mkEvent (Call.callerId c) "call:ringing"
                 (CallRingingPayload callId) now])%list).
Proof.
  intros Hc ->. unfold reportRinging. rewrite Hc.
  rewrite bool_decide_eq_false_2 by (intros Hne; by apply Hne).
  unfold call_update. rewrite Hc. done.
Qed.

Lemma acceptCall_run env callId now w c :
  calls (db w) !! callId = Some c →
  let d1 := with_calls (<[callId := accepted now c]> (calls (db w))) (db w) in
  acceptCall env (Some (Call.receiverId c)) (Some callId) now w =
    match LiveKitService.generateToken (livekit env) (Call.roomId c)
            (Call.receiverId c)
            (User.name <$> users (db w) !! Call.receiverId c) with
    | Some token =>
        (res 200 (TokenBody token),
         mkWorld d1
           (outbox w ++
            [mkEvent (Call.callerId c) "call:accepted"
               (CallAcceptedPayload callId (Call.receiverId c)) now])%list)
    | None => (res 500 (ErrorBody "Failed to accept call"),
               mkWorld d1 (outbox w))
    end.
Proof.
  intros Hc d1. unfold acceptCall. rewrite Hc.
  rewrite bool_decide_eq_false_2 by (intros Hne; by apply Hne).
  unfold call_update. rewrite Hc. done.
Qed.

Lemma acceptCall_refused env user callId now w :
  (calls (db w) !! callId = None
   ∨ ∃ c, calls (db w) !! callId = Some c
          ∧ user ≠ Some (Call.receiverId c)) →
  acceptCall env user (Some callId) now w =
    (res 404 (ErrorBody "Call not found or unauthorized"), w).
Proof.
  unfold acceptCall. intros [Hc|(c & Hc & Hne)]; rewrite Hc; [done|].
  destruct user as [userId|]; [|done].
  rewrite bool_decide_eq_true_2; [done|]. congruence.
Qed.

Lemma reportRinging_refused user callId now w :
  (calls (db w) !! callId = None
   ∨ ∃ c, calls (db w) !! callId = Some c
          ∧ user ≠ Some (Call.receiverId c)) →
  reportRinging user (Some callId) now w =
    (res 404 (ErrorBody "Call not found"), w).
Proof.
  unfold reportRinging. intros [Hc|(c & Hc & Hne)]; rewrite Hc; [done|].
  rewrite bool_decide_eq_true_2; [done|]. congruence.
Qed.

Lemma generateToken_configured lk roomName participant pname :
  LiveKitService.apiKey lk ≠ "" → LiveKitService.apiSecret lk ≠ "" →
  LiveKitService.generateToken lk roomName participant pname
  = Some (mkToken roomName participant pname).
Proof.
  intros Hk Hs. unfold LiveKitService.generateToken.
  rewrite bool_decide_eq_false_2; [done|]. by intros [?|?].
Qed.

(** C2 (as stated) fails: bob has declined alice's call, so it is REJECTED,
    a terminal state.  A later [end] by alice is answered 200 and rewrites
    the status to MISSED; a later [accept] by bob is answered 200 and moves
    the call to ACCEPTED; a later [reportRinging] moves it to RINGING. *)
Lemma terminal_call_still_transitions :
  call_status_of "k1" Scenario.rejected.2 = Some REJECTED
  ∧ terminal REJECTED = true
  ∧ code (endCall (Some "alice") (Some "k1") (Some "MISSED") 3000
            Scenario.rejected.2).1 = 200
  ∧ call_status_of "k1"
      (endCall (Some "alice") (Some "k1") (Some "MISSED") 3000
         Scenario.rejected.2).2 = Some MISSED
  ∧ code (acceptCall Scenario.env (Some "bob") (Some "k1") 3000
            Scenario.rejected.2).1 = 200
  ∧ call_status_of "k1"
      (acceptCall Scenario.env (Some "bob") (Some "k1") 3000
         Scenario.rejected.2).2 = Some ACCEPTED
  ∧ call_status_of "k1"
      (reportRinging (Some "bob") (Some "k1") 3000 Scenario.rejected.2).2
    = Some RINGING.
Proof. vm_compute. split_and!; reflexivity. Qed.

Lemma endCall_unknown_status user callId status now w c :
  calls (db w) !! callId = Some c →
  user = Some (Call.callerId c) ∨ user = Some (Call.receiverId c) →
  parseCallStatus (js_or status "ENDED") = None →
  endCall user (Some callId) status now w
  = (res 500 (ErrorBody "Failed to end call"), w).
Proof.
  intros Hc Hactor Hst. unfold endCall. rewrite Hc.
  assert (negb (bool_decide (Some (Call.callerId c) = user))
          && negb (bool_decide (Some (Call.receiverId c) = user)) = false)
    as ->.
  { destruct Hactor as [-> | ->].
    - by rewrite bool_decide_eq_true_2.
    - rewrite (bool_decide_eq_true_2 (Some (Call.receiverId c) = _)) by done.
      by rewrite andb_false_r. }
  by rewrite Hst.
Qed.

Lemma endCall_not_party user callId status now w c :
  calls (db w) !! callId = Some c →
  ¬ (user = Some (Call.callerId c) ∨ user = Some (Call.receiverId c)) →
  endCall user (Some callId) status now w
  = (res 403 (ErrorBody "Unauthorized"), w).
Proof.
  intros Hc Hactor. unfold endCall. rewrite Hc.
  rewrite !bool_decide_eq_false_2; [done|..];
    intros Heq; apply Hactor; by auto.
Qed.

(** C2 (as amended).  A terminal status does not stop the call operations,
    none of which reads the current status.  On a call in ENDED, REJECTED,
    MISSED or BUSY: [end] by the caller or the receiver, with a status that
    is absent or names a [CallStatus], is answered 200 and rewrites the row
    with that status (ENDED by default), a new end time and duration;
    [end] by a party with any other status is answered 500 and [end] by
    anybody else 403, and both leave the world as it was.  [reportRinging]
    by the receiver is answered 200 and moves the call to RINGING; [accept]
    by the receiver moves it to ACCEPTED and records the start time
    (answered 200 when the token service is configured and 500 when it is
    not); either request by anybody else is answered 404 and leaves the
    world as it was. *)
Theorem terminal_state_not_enforced env callId now w c :
  calls (db w) !! callId = Some c →
  terminal (Call.status c) = true →
  (∀ user status,
     let party :=
       user = Some (Call.callerId c) ∨ user = Some (Call.receiverId c) in
     let r := endCall user (Some callId) status now w in
     (∀ st, party → parseCallStatus (js_or status "ENDED") = Some st →
        code r.1 = 200
        ∧ calls (db r.2) !! callId = Some (ended st now c)
        ∧ call_status_of callId r.2 = Some st)
     ∧ (party → parseCallStatus (js_or status "ENDED") = None →
        code r.1 = 500 ∧ r.2 = w)
     ∧ (¬ party → code r.1 = 403 ∧ r.2 = w))
  ∧ (∀ user,
       let r := reportRinging user (Some callId) now w in
       (user = Some (Call.receiverId c) →
        code r.1 = 200
        ∧ calls (db r.2) !! callId = Some (ringing c)
        ∧ call_status_of callId r.2 = Some RINGING)
       ∧ (user ≠ Some (Call.receiverId c) → code r.1 = 404 ∧ r.2 = w))
  ∧ (∀ user,
       let r := acceptCall env user (Some callId) now w in
       (user = Some (Call.receiverId c) →
        calls (db r.2) !! callId = Some (accepted now c)
        ∧ call_status_of callId r.2 = Some ACCEPTED
        ∧ (configured (livekit env) → code r.1 = 200)
        ∧ (¬ configured (livekit env) → code r.1 = 500))
       ∧ (user ≠ Some (Call.receiverId c) → code r.1 = 404 ∧ r.2 = w)).
Proof.
  intros Hc _. split_and!.
  - intros user status party r. subst party r. split_and!.
    + intros st Hactor Hst.
      rewrite (endCall_run _ _ _ _ _ c st) by done.
      unfold call_status_of. cbn [fst snd code db calls with_calls].
      by rewrite lookup_insert_eq.
    + intros Hactor Hst.
      by rewrite (endCall_unknown_status _ _ _ _ _ c).
    + intros Hactor. by rewrite (endCall_not_party _ _ _ _ _ c).
  - intros user r. subst r. split.
    + intros ->. rewrite (reportRinging_run _ _ _ _ c) by done.
      unfold call_status_of. cbn [fst snd code db calls with_calls].
      by rewrite lookup_insert_eq.
    + intros Hne. rewrite reportRinging_refused; [done|].
      right. by exists c.
  - intros user r. subst r. split.
    + intros ->. rewrite (acceptCall_run _ _ _ _ c) by done.
      unfold call_status_of, LiveKitService.generateToken, configured.
      case_bool_decide as Hlk; cbn [fst snd code db calls with_calls];
        rewrite lookup_insert_eq; (split_and!; [done|done|..]).
      * by intros [? ?]; destruct Hlk.
      * done.
      * done.
      * intros Hnot. destruct Hnot.
        split; intros ?; apply Hlk; by auto.
    + intros Hne. rewrite acceptCall_refused; [done|].
      right. by exists c.
Qed.

Lemma terminal_state_not_enforced_witness :
  code (endCall (Some "alice") (Some "k1") (Some "MISSED") 3000
          Scenario.rejected.2).1 = 200
  ∧ call_status_of "k1"
      (endCall (Some "alice") (Some "k1") (Some "MISSED") 3000
         Scenario.rejected.2).2 = Some MISSED
  ∧ code (endCall (Some "alice") (Some "k1") (Some "BOGUS") 3000
            Scenario.rejected.2).1 = 500
  ∧ (endCall (Some "alice") (Some "k1") (Some "BOGUS") 3000
       Scenario.rejected.2).2 = Scenario.rejected.2
  ∧ call_status_of "k1"
      (acceptCall Scenario.env (Some "bob") (Some "k1") 3000
         Scenario.rejected.2).2
    = Some ACCEPTED.
Proof.
  destruct (terminal_state_not_enforced Scenario.env "k1" 3000
              Scenario.rejected.2
              (Call.mk "alice" "bob" "VIDEO" None "room-alice-1000" REJECTED
                 None (Some 2000%Z) None))
    as (Hend & _ & Haccept).
  - vm_compute; reflexivity.
  - vm_compute; reflexivity.
  - destruct (Hend (Some "alice") (Some "MISSED")) as (Hok & _ & _).
    destruct (Hend (Some "alice") (Some "BOGUS")) as (_ & Hbad & _).
    destruct (Haccept (Some "bob")) as (Hacc & _).
    destruct (Hok MISSED) as (H200 & _ & Hst); [by left|reflexivity|].
    destruct Hbad as (H500 & Hsame); [by left|reflexivity|].
    destruct Hacc as (_ & Hst' & _); [reflexivity|].
    exact (conj H200 (conj Hst (conj H500 (conj Hsame Hst')))).
Defined.

(** C6 (as stated) fails: bob accepts the call he has already declined; the
    status is REJECTED, neither INITIATED nor RINGING, and the request
    succeeds. *)
Lemma accept_succeeds_from_rejected :
  call_status_of "k1" Scenario.rejected.2 = Some REJECTED
  ∧ REJECTED ≠ INITIATED ∧ REJECTED ≠ RINGING
  ∧ (acceptCall Scenario.env (Some "bob") (Some "k1") 3000
       Scenario.rejected.2).1
    = res 200 (TokenBody (mkToken "room-alice-1000" "bob" (Some "Bob"))).
Proof. split_and!; try done; vm_compute; reflexivity. Qed.

(** C6 (as amended).  [accept] succeeds only when the call exists and the
    acting user is its receiver, and then whatever the call's status is,
    provided the token service is configured.  On success the row has
    status ACCEPTED and the start time, the response carries a credential
    for the receiver in the call's room, and exactly one event,
    [call:accepted], is sent, to the caller.  When the call does not exist
    or the actor is not the receiver the answer is 404 and nothing
    changes. *)
Theorem acceptCall_spec env user callId now w r w' :
  acceptCall env user callId now w = (r, w') →
  (code r = 200 →
   ∃ cid c,
     callId = Some cid
     ∧ calls (db w) !! cid = Some c
     ∧ user = Some (Call.receiverId c)
     ∧ calls (db w') !! cid = Some (accepted now c)
     ∧ body r = TokenBody (mkToken (Call.roomId c) (Call.receiverId c)
                             (User.name <$> users (db w) !! Call.receiverId c))
     ∧ outbox w' =
       (outbox w ++ [mkEvent (Call.callerId c) "call:accepted"
                       (CallAcceptedPayload cid (Call.receiverId c)) now])%list)
  ∧ (∀ cid c,
       callId = Some cid → calls (db w) !! cid = Some c →
       user = Some (Call.receiverId c) →
       LiveKitService.apiKey (livekit env) ≠ "" →
       LiveKitService.apiSecret (livekit env) ≠ "" →
       code r = 200)
  ∧ (∀ cid,
       callId = Some cid →
       (calls (db w) !! cid = None
        ∨ ∃ c, calls (db w) !! cid = Some c
               ∧ user ≠ Some (Call.receiverId c)) →
       code r = 404 ∧ w' = w).
Proof.
  intros Hrun. split_and!.
  - intros Hcode. destruct callId as [cid|]; [|by simplify_eq/=].
    destruct (calls (db w) !! cid) as [c|] eqn:Hc;
      [|rewrite acceptCall_refused in Hrun by (by left); by simplify_eq].
    destruct (decide (user = Some (Call.receiverId c))) as [->|Hne];
      [|rewrite acceptCall_refused in Hrun by (right; by exists c);
        by simplify_eq].
    rewrite (acceptCall_run _ _ _ _ c) in Hrun by done.
    unfold LiveKitService.generateToken in Hrun.
    case_bool_decide; simplify_eq/=.
    exists cid, c. rewrite lookup_insert_eq. done.
  - intros cid c -> Hc -> Hk Hs.
    rewrite (acceptCall_run _ _ _ _ c) in Hrun by done.
    rewrite generateToken_configured in Hrun by done. by simplify_eq.
  - intros cid -> Hrefused.
    rewrite acceptCall_refused in Hrun by done. by simplify_eq.
Qed.

Lemma acceptCall_spec_witness :
  ∃ cid c,
    Some "k1" = Some cid
    ∧ calls (db Scenario.called.2) !! cid = Some c
    ∧ Some "bob" = Some (Call.receiverId c)
    ∧ calls (db (acceptCall Scenario.env (Some "bob") (Some "k1") 1500
                   Scenario.called.2).2) !! cid
      = Some (accepted 1500 c)
    ∧ body (acceptCall Scenario.env (Some "bob") (Some "k1") 1500
              Scenario.called.2).1
      = TokenBody (mkToken (Call.roomId c) (Call.receiverId c)
                     (User.name <$>
                      users (db Scenario.called.2) !! Call.receiverId c))
    ∧ outbox (acceptCall Scenario.env (Some "bob") (Some "k1") 1500
                Scenario.called.2).2
      = (outbox Scenario.called.2
         ++ [mkEvent (Call.callerId c) "call:accepted"
               (CallAcceptedPayload cid (Call.receiverId c)) 1500])%list.
Proof.
  destruct (acceptCall_spec Scenario.env (Some "bob") (Some "k1") 1500
              Scenario.called.2
              (acceptCall Scenario.env (Some "bob") (Some "k1") 1500
                 Scenario.called.2).1
              (acceptCall Scenario.env (Some "bob") (Some "k1") 1500
                 Scenario.called.2).2) as (Hok & _).
  - vm_compute; reflexivity.
  - apply Hok. vm_compute; reflexivity.
Defined.

(** The row [endCall] writes carries whatever [CallStatus] the request
    names. *)
Lemma endCall_persists_requested user callId status now w c st :
  calls (db w) !! callId = Some c →
  user = Some (Call.callerId c) ∨ user = Some (Call.receiverId c) →
  parseCallStatus (js_or status "ENDED") = Some st →
  call_status_of callId (endCall user (Some callId) status now w).2 = Some st.
Proof.
  intros Hc Hactor Hst. rewrite (endCall_run _ _ _ _ _ c st) by done.
  unfold call_status_of. cbn [snd db calls with_calls].
  by rewrite lookup_insert_eq.
Qed.

Lemma endCall_default_ended user callId status now w c :
  calls (db w) !! callId = Some c →
  user = Some (Call.callerId c) ∨ user = Some (Call.receiverId c) →
  truthy status = None →
  call_status_of callId (endCall user (Some callId) status now w).2
  = Some ENDED.
Proof.
  intros Hc Hactor Hst. apply (endCall_persists_requested _ _ _ _ _ c);
    [done..|]. by rewrite js_or_None.
Qed.

(** C7 fails on the code.  alice has just called bob (INITIATED) and ends
    the call with [status: "RINGING"]: the request is answered 200 and the
    row is persisted with status RINGING, which is none of the four terminal
    states, instead of ENDED. *)
Theorem endCall_persists_non_terminal :
  call_status_of "k1" Scenario.called.2 = Some INITIATED
  ∧ (endCall (Some "alice") (Some "k1") (Some "RINGING") 2000
       Scenario.called.2).1 = res 200 SuccessBody
  ∧ call_status_of "k1"
      (endCall (Some "alice") (Some "k1") (Some "RINGING") 2000
         Scenario.called.2).2 = Some RINGING
  ∧ terminal RINGING = false
  ∧ RINGING ≠ ENDED.
Proof. split_and!; try done; vm_compute; reflexivity. Qed.

(** A [201] from [initiateCall]: the row is created in INITIATED with the
    room of [roomId], and exactly one event, [call:incoming], goes to the
    receiver with the caller, the call id, the type and the room. *)
Lemma initiateCall_created env user receiverId type conversationId newId now
    w r w' :
  initiateCall env user receiverId type conversationId newId now w = (r, w') →
  code r = 201 →
  ∃ callerId receiver ty,
    user = Some callerId
    ∧ truthy receiverId = Some receiver
    ∧ truthy type = Some ty
    ∧ calls (db w) !! newId = None
    ∧ calls (db w') !! newId
      = Some (Call.mk callerId receiver ty conversationId
                (roomId callerId now) INITIATED None None None)
    ∧ outbox w' =
      (outbox w ++
       [mkEvent receiver "call:incoming"
          (CallIncomingPayload newId
             ((λ u, (callerId, u)) <$> users (db w) !! callerId) ty
             (roomId callerId now) conversationId) now])%list.
Proof.
  unfold initiateCall. intros Hrun Hcode.
  destruct (truthy receiverId) as [receiver|]; [|by simplify_eq].
  destruct (truthy type) as [ty|]; [|by simplify_eq].
  destruct user as [callerId|]; [|by simplify_eq].
  unfold call_create in Hrun.
  case_bool_decide as Hcreate; [|by simplify_eq].
  destruct Hcreate as [Hfresh _].
  destruct (LiveKitService.generateToken _ _ _ _); simplify_eq/=.
  exists callerId, receiver, ty. rewrite lookup_insert_eq. done.
Qed.

(** The room name depends on the caller only through the first eight
    characters of the id, and on the time only to the millisecond. *)
Lemma roomId_collides (caller1 caller2 : string) (now : Z) :
  String.substring 0 8 caller1 = String.substring 0 8 caller2 →
  roomId caller1 now = roomId caller2 now.
Proof. unfold roomId. by intros ->. Qed.

(** C8 fails on the code.  alice calls bob and, within the same
    millisecond, carol: both requests are answered 201 and the two calls
    get the same room. *)
Theorem initiateCall_room_not_unique :
  code Scenario.called.1 = 201
  ∧ code Scenario.called_twice.1 = 201
  ∧ (Call.roomId <$> calls (db Scenario.called_twice.2) !! "k1")
    = Some "room-alice-1000"
  ∧ (Call.roomId <$> calls (db Scenario.called_twice.2) !! "k2")
    = Some "room-alice-1000"
  ∧ roomId "c0ffee00-0001" 1000 = roomId "c0ffee00-0002" 1000.
Proof. split_and!; vm_compute; reflexivity. Qed.

(** ** Call signalling: effects, errors and composition *)

(** Every call handler, whatever it answers, leaves the world as it was or
    rewrites one row of [calls] and appends at most one event. *)
Lemma handleCall_effect env q w :
  (handleCall env q w).2 = w
  ∨ ∃ cid c evs,
      (handleCall env q w).2
      = mkWorld (with_calls (<[cid := c]> (calls (db w))) (db w))
                (outbox w ++ evs)%list
      ∧ (length evs ≤ 1)%nat
      ∧ (evs = [] ∨ succeeded (handleCall env q w).1 = true)
      ∧ (∀ c0, calls (db w) !! cid = Some c0 →
               call_identity c = call_identity c0).
Proof.
  destruct q as [user receiverId type conversationId newId now
                |user callId now|user callId now|user callId status now];
    simpl.
  - unfold initiateCall.
    destruct (truthy receiverId) as [receiver|]; [|by left].
    destruct (truthy type) as [ty|]; [|by left].
    destruct user as [callerId|]; [|by left].
    unfold call_create. case_bool_decide as Hcreate; [|by left].
    destruct Hcreate as [Hfresh _]. right.
    destruct (LiveKitService.generateToken _ _ _ _); simpl.
    + eexists _, _, [_]. split_and!; [done|simpl; lia|by right|].
      intros c0 Hc0. by rewrite Hfresh in Hc0.
    + eexists _, _, []. rewrite app_nil_r.
      split_and!; [done|simpl; lia|by left|].
      intros c0 Hc0. by rewrite Hfresh in Hc0.
  - unfold reportRinging.
    destruct callId as [cid|]; [|by left].
    destruct (calls (db w) !! cid) as [c|] eqn:Hc; [|by left].
    case_bool_decide; [by left|].
    unfold call_update. rewrite Hc. right. simpl.
    eexists _, _, [_]. split_and!; [done|simpl; lia|by right|].
    intros c0 Hc0. by simplify_eq.
  - unfold acceptCall.
    destruct callId as [cid|]; [|by left].
    destruct (calls (db w) !! cid) as [c|] eqn:Hc; [|by left].
    destruct user as [userId|]; [|by left].
    case_bool_decide; [by left|].
    unfold call_update. rewrite Hc. right.
    destruct (LiveKitService.generateToken _ _ _ _); simpl.
    + eexists _, _, [_]. split_and!; [done|simpl; lia|by right|].
      intros c0 Hc0. by simplify_eq.
    + eexists _, _, []. rewrite app_nil_r.
      split_and!; [done|simpl; lia|by left|].
      intros c0 Hc0. by simplify_eq.
  - unfold endCall.
    destruct callId as [cid|]; [|by left].
    destruct (calls (db w) !! cid) as [c|] eqn:Hc; [|by left].
    destruct (negb _ && negb _); [by left|].
    destruct (parseCallStatus _) as [st|]; [|by left].
    unfold call_update. rewrite Hc. right. simpl.
    eexists _, _, [_]. split_and!; [done|simpl; lia|by right|].
    intros c0 Hc0. by simplify_eq.
Qed.

(** One request: users, conversations and messages are untouched, no call
    disappears or changes identity, and at most one event is appended, none
    unless the answer is 2xx. *)
Lemma handleCall_frame env q w :
  users (db (handleCall env q w).2) = users (db w)
  ∧ conversations (db (handleCall env q w).2) = conversations (db w)
  ∧ messages (db (handleCall env q w).2) = messages (db w)
  ∧ (∀ cid c0,
       calls (db w) !! cid = Some c0 →
       ∃ c, calls (db (handleCall env q w).2) !! cid = Some c
            ∧ call_identity c = call_identity c0)
  ∧ (∃ evs, outbox (handleCall env q w).2 = (outbox w ++ evs)%list
            ∧ (length evs ≤ 1)%nat
            ∧ (succeeded (handleCall env q w).1 = false → evs = [])).
Proof.
  destruct (handleCall_effect env q w)
    as [->|(cid & c & evs & -> & Hlen & Hevs & Hid)].
  - split_and!; try done.
    + intros cid c0 Hc0. by exists c0.
    + exists []. rewrite app_nil_r. split_and!; [done|simpl; lia|done].
  - cbn [db outbox users conversations messages calls with_calls].
    split_and!; try done.
    + intros cid' c0 Hc0. destruct (decide (cid = cid')) as [->|Hne].
      * exists c. rewrite lookup_insert_eq. split; [done|]. by apply Hid.
      * exists c0. by rewrite lookup_insert_ne.
    + exists evs. split_and!; [done..|].
      intros Hfail. destruct Hevs as [?|Hok]; [done|congruence].
Qed.

(** X1.  Whatever sequence of call requests is served, users, conversations
    and messages stay as they were, no call row disappears, the parties,
    type, conversation and room of an existing call never change, and the
    event log only grows, by at most one event per request. *)
Theorem call_handlers_frame env qs : ∀ w,
  users (db (runCalls env qs w)) = users (db w)
  ∧ conversations (db (runCalls env qs w)) = conversations (db w)
  ∧ messages (db (runCalls env qs w)) = messages (db w)
  ∧ (∀ cid c0,
       calls (db w) !! cid = Some c0 →
       ∃ c, calls (db (runCalls env qs w)) !! cid = Some c
            ∧ call_identity c = call_identity c0)
  ∧ (∃ evs, outbox (runCalls env qs w) = (outbox w ++ evs)%list
            ∧ (length evs ≤ length qs)%nat).
Proof.
  induction qs as [|q qs IH]; intros w.
  - split_and!; try done.
    + intros cid c0 Hc0. by exists c0.
    + exists []. by rewrite app_nil_r.
  - destruct (handleCall_frame env q w)
      as (Hu & Hc & Hm & Hkeep & evs1 & Hout1 & Hlen1 & _).
    destruct (IH (handleCall env q w).2)
      as (Hu' & Hc' & Hm' & Hkeep' & evs2 & Hout2 & Hlen2).
    cbn [runCalls foldl] in *. fold (runCalls env qs (handleCall env q w).2).
    split_and!.
    + by rewrite Hu'.
    + by rewrite Hc'.
    + by rewrite Hm'.
    + intros cid c0 Hc0.
      destruct (Hkeep cid c0 Hc0) as (c1 & Hc1 & Hid1).
      destruct (Hkeep' cid c1 Hc1) as (c & Hc2 & Hid2).
      exists c. split; [done|]. by rewrite Hid2.
    + exists (evs1 ++ evs2)%list. rewrite Hout2, Hout1, <- app_assoc.
      split; [done|]. rewrite length_app. simpl. lia.
Qed.

Lemma other_party_of_receiver c :
  other_party (Some (Call.receiverId c)) c = Call.callerId c.
Proof.
  unfold other_party. case_bool_decide as Heq; [|done]. by simplify_eq.
Qed.

Lemma other_party_of_caller c :
  other_party (Some (Call.callerId c)) c = Call.receiverId c.
Proof. unfold other_party. by rewrite bool_decide_eq_true_2. Qed.

(** X2.  A call request notifies somebody exactly when it is answered 2xx:
    then one event is appended, named after the route, addressed to the
    other party of the call, and the acting user is one of the call's two
    parties; a request answered otherwise sends nothing. *)
Theorem call_notification env q w :
  (succeeded (handleCall env q w).1 = false →
   outbox (handleCall env q w).2 = outbox w)
  ∧ (succeeded (handleCall env q w).1 = true →
     ∃ cid c e,
       calls (db (handleCall env q w).2) !! cid = Some c
       ∧ outbox (handleCall env q w).2 = (outbox w ++ [e])%list
       ∧ eventName e = call_event_name q
       ∧ targetUserId e = other_party (actor q) c
       ∧ (actor q = Some (Call.callerId c)
          ∨ actor q = Some (Call.receiverId c))).
Proof.
  destruct q as [user receiverId type conversationId newId now
                |user callId now|user callId now|user callId status now];
    cbn [handleCall actor call_event_name].
  - unfold initiateCall.
    destruct (truthy receiverId) as [receiver|]; [|by split].
    destruct (truthy type) as [ty|]; [|by split].
    destruct user as [callerId|]; [|by split].
    unfold call_create. case_bool_decide as Hcreate; [|by split].
    destruct (LiveKitService.generateToken _ _ _ _); [|by split].
    split; [done|]. intros _. unfold sendEventToUser.
    cbn [fst snd db calls with_calls outbox].
    eexists newId, _, _. rewrite lookup_insert_eq.
    split_and!; [done|done|done| |by left].
    symmetry. apply (other_party_of_caller (Call.mk _ _ _ _ _ _ _ _ _)).
  - unfold reportRinging.
    destruct callId as [cid|]; [|by split].
    destruct (calls (db w) !! cid) as [c|] eqn:Hc; [|by split].
    case_bool_decide as Hne; [by split|].
    subst user.
    unfold call_update. rewrite Hc.
    split; [done|]. intros _. unfold sendEventToUser.
    cbn [fst snd db calls with_calls outbox].
    eexists cid, _, _. rewrite lookup_insert_eq.
    split_and!; [done|done|done| |by right].
    symmetry. apply (other_party_of_receiver (Call.mk _ _ _ _ _ _ _ _ _)).
  - unfold acceptCall.
    destruct callId as [cid|]; [|by split].
    destruct (calls (db w) !! cid) as [c|] eqn:Hc; [|by split].
    destruct user as [userId|]; [|by split].
    case_bool_decide as Hne; [by split|].
    subst userId.
    unfold call_update. rewrite Hc.
    destruct (LiveKitService.generateToken _ _ _ _); [|by split].
    split; [done|]. intros _. unfold sendEventToUser.
    cbn [fst snd db calls with_calls outbox].
    eexists cid, _, _. rewrite lookup_insert_eq.
    split_and!; [done|done|done| |by right].
    symmetry. apply (other_party_of_receiver (Call.mk _ _ _ _ _ _ _ _ _)).
  - unfold endCall.
    destruct callId as [cid|]; [|by split].
    destruct (calls (db w) !! cid) as [c|] eqn:Hc; [|by split].
    destruct (negb _ && negb _) eqn:Hparty; [by split|].
    destruct (parseCallStatus _) as [st|]; [|by split].
    unfold call_update. rewrite Hc.
    split; [done|]. intros _. unfold sendEventToUser.
    cbn [fst snd db calls with_calls outbox].
    eexists cid, _, _. rewrite lookup_insert_eq.
    split_and!; [done|done|done|done|].
    apply andb_false_iff in Hparty as [H|H];
      apply negb_false_iff, bool_decide_eq_true in H; auto.
Qed.

Lemma generateToken_unconfigured lk roomName participant pname :
  ¬ configured lk →
  LiveKitService.generateToken lk roomName participant pname = None.
Proof.
  intros Hnot. unfold LiveKitService.generateToken.
  rewrite bool_decide_eq_true_2; [done|].
  destruct (decide (LiveKitService.apiKey lk = "")); [by left|].
  destruct (decide (LiveKitService.apiSecret lk = "")); [by right|].
  destruct Hnot. by split.
Qed.

Lemma initiateCall_run env callerId receiver ty conversationId newId now w :
  receiver ≠ "" → ty ≠ "" →
  calls (db w) !! newId = None →
  ty ∈ callTypes env →
  initiateCall env (Some callerId) (Some receiver) (Some ty) conversationId
    newId now w =
    let c := initiated callerId receiver ty conversationId now in
    let d1 := with_calls (<[newId := c]> (calls (db w))) (db w) in
    match LiveKitService.generateToken (livekit env) (roomId callerId now)
            callerId (User.name <$> users (db w) !! callerId) with
    | Some token =>
        (res 201 (CallBody newId c token),
         mkWorld d1
           (outbox w ++
            [mkEvent receiver "call:incoming"
               (CallIncomingPayload newId
                  ((λ u, (callerId, u)) <$> users (db w) !! callerId) ty
                  (roomId callerId now) conversationId) now])%list)
    | None => (res 500 (ErrorBody "Failed to initiate call"),
               mkWorld d1 (outbox w))
    end.
Proof.
  intros Hr Ht Hfresh Hty. unfold initiateCall.
  rewrite !truthy_self by done. unfold call_create.
  rewrite bool_decide_eq_true_2 by done. done.
Qed.

(** X3.  When the LiveKit credentials are missing, an otherwise valid
    [initiate] is answered 500 although the call row has been created (in
    INITIATED) and the receiver is never told; likewise [accept] by the
    receiver is answered 500 although the row has been set to ACCEPTED with
    its start time, and the caller is never told. *)
Theorem token_failure_partial_effect env :
  ¬ configured (livekit env) →
  (∀ callerId receiver ty conversationId newId now w,
     receiver ≠ "" → ty ≠ "" →
     calls (db w) !! newId = None →
     ty ∈ callTypes env →
     initiateCall env (Some callerId) (Some receiver) (Some ty)
       conversationId newId now w
     = (res 500 (ErrorBody "Failed to initiate call"),
        mkWorld
          (with_calls
             (<[newId := initiated callerId receiver ty conversationId now]>
                (calls (db w))) (db w))
          (outbox w)))
  ∧ (∀ cid c now w,
       calls (db w) !! cid = Some c →
       acceptCall env (Some (Call.receiverId c)) (Some cid) now w
       = (res 500 (ErrorBody "Failed to accept call"),
          mkWorld
            (with_calls (<[cid := accepted now c]> (calls (db w))) (db w))
            (outbox w))).
Proof.
  intros Hnot. split.
  - intros callerId receiver ty conversationId newId now w Hr Ht Hfresh Hty.
    rewrite initiateCall_run by done. simpl.
    by rewrite generateToken_unconfigured.
  - intros cid c now w Hc.
    rewrite (acceptCall_run _ _ _ _ c) by done.
    by rewrite generateToken_unconfigured.
Qed.

(** X4.  [accept] at [t0] followed by [end] at [t1]: the row keeps the start
    time, gets the end time, and the persisted duration is the whole number
    of seconds between them, rounded down (so it is negative when the end
    precedes the start); the [call:ended] event carries the same number.  A
    call that was never accepted is ended with no persisted duration and 0
    in the event. *)
Theorem accept_then_end_duration env cid t0 t1 w c user status st :
  calls (db w) !! cid = Some c →
  user = Some (Call.callerId c) ∨ user = Some (Call.receiverId c) →
  parseCallStatus (js_or status "ENDED") = Some st →
  (let w1 := (acceptCall env (Some (Call.receiverId c)) (Some cid) t0 w).2 in
   let w2 := (endCall user (Some cid) status t1 w1).2 in
   ∃ c2 d,
     calls (db w2) !! cid = Some c2
     ∧ Call.status c2 = st
     ∧ Call.startTime c2 = Some t0
     ∧ Call.endTime c2 = Some t1
     ∧ Call.duration c2 = Some d
     ∧ (1000 * d ≤ t1 - t0 < 1000 * d + 1000)%Z
     ∧ last (outbox w2)
       = Some (mkEvent (other_party user c) "call:ended"
                 (CallEndedPayload cid (js_or status "ENDED") d) t1))
  ∧ (Call.startTime c = None →
     let w2 := (endCall user (Some cid) status t1 w).2 in
     (Call.duration <$> calls (db w2) !! cid) = Some None
     ∧ last (outbox w2)
       = Some (mkEvent (other_party user c) "call:ended"
                 (CallEndedPayload cid (js_or status "ENDED") 0) t1)).
Proof.
  intros Hc Hactor Hst. split.
  - intros w1 w2. subst w2 w1.
    assert (Hw1 : calls (db (acceptCall env (Some (Call.receiverId c))
                               (Some cid) t0 w).2) !! cid
                  = Some (accepted t0 c)).
    { rewrite (acceptCall_run _ _ _ _ c) by done.
      destruct (LiveKitService.generateToken _ _ _ _);
        cbn [snd db calls with_calls]; by rewrite lookup_insert_eq. }
    rewrite (endCall_run _ _ _ _ _ (accepted t0 c) st) by done.
    cbn [snd db calls with_calls outbox]. rewrite lookup_insert_eq.
    eexists _, ((t1 - t0) / 1000)%Z. split_and!; try done.
    + pose proof (Z.mul_div_le (t1 - t0) 1000 ltac:(lia)). lia.
    + pose proof (Z.mod_pos_bound (t1 - t0) 1000 ltac:(lia)).
      pose proof (Z.div_mod (t1 - t0) 1000 ltac:(lia)). lia.
    + by rewrite last_snoc.
  - intros Hstart w2. subst w2.
    rewrite (endCall_run _ _ _ _ _ c st) by done.
    cbn [snd db calls with_calls outbox]. rewrite lookup_insert_eq.
    rewrite last_snoc. unfold ended, call_duration. rewrite Hstart. done.
Qed.

(** X5.  The answers of [end], for a request that names a call: 200 exactly
    when the call exists, the actor is its caller or receiver and the status
    (or the default ENDED) names a [CallStatus]; 404 exactly when the call
    does not exist; 403 exactly when it exists and the actor is neither
    party; 500 otherwise, that is, for a party naming an unknown status.
    Every answer other than 200 leaves the world untouched. *)
Theorem endCall_outcome user cid status now w :
  let r := (endCall user (Some cid) status now w).1 in
  let party c :=
    user = Some (Call.callerId c) ∨ user = Some (Call.receiverId c) in
  (code r = 200 ↔
   ∃ c, calls (db w) !! cid = Some c ∧ party c
        ∧ is_Some (parseCallStatus (js_or status "ENDED")))
  ∧ (code r = 404 ↔ calls (db w) !! cid = None)
  ∧ (code r = 403 ↔ ∃ c, calls (db w) !! cid = Some c ∧ ¬ party c)
  ∧ (code r = 500 ↔
     ∃ c, calls (db w) !! cid = Some c ∧ party c
          ∧ parseCallStatus (js_or status "ENDED") = None)
  ∧ (code r ≠ 200 → (endCall user (Some cid) status now w).2 = w).
Proof.
  intros r party. subst r.
  assert (Hflag : ∀ c, negb (bool_decide (Some (Call.callerId c) = user))
                       && negb (bool_decide (Some (Call.receiverId c) = user))
                       = bool_decide (¬ party c)).
  { intros c. subst party. simpl.
    repeat case_bool_decide; simpl; try done; exfalso; intuition congruence. }
  unfold endCall. destruct (calls (db w) !! cid) as [c|] eqn:Hc.
  - rewrite Hflag. case_bool_decide as Hp.
    + simpl. split_and!; [split|split|split|split|]; try done.
      * intros (c' & ? & ? & ?). by simplify_eq.
      * intros _. by exists c.
      * intros (c' & ? & ? & ?). by simplify_eq.
    + destruct (parseCallStatus (js_or status "ENDED")) as [st|] eqn:Hst.
      * unfold call_update. rewrite Hc. simpl.
        split_and!; [split|split|split|split|]; try done.
        -- intros _. exists c. by eauto.
        -- intros (c' & ? & Hn). by simplify_eq.
        -- by intros (c' & ? & ? & ?).
      * simpl. split_and!; [split|split|split|split|]; try done.
        -- by intros (c' & ? & ? & [? ?]).
        -- intros (c' & ? & Hn). by simplify_eq.
        -- intros _. exists c. by eauto.
  - simpl. split_and!; [split|split|split|split|]; try done.
    + by intros (c' & ? & ?).
    + by intros (c' & ? & ?).
    + by intros (c' & ? & ?).
Qed.

(** X6.  Reporting ringing again changes nothing in the store: the row is
    the one the first report wrote, in RINGING with its start time, end time
    and duration kept.  It is not idempotent on notifications: the caller
    gets a second [call:ringing]. *)
Theorem reportRinging_repeat cid now now' w c :
  calls (db w) !! cid = Some c →
  let w1 := (reportRinging (Some (Call.receiverId c)) (Some cid) now w).2 in
  let w2 := (reportRinging (Some (Call.receiverId c)) (Some cid) now' w1).2 in
  calls (db w1) !! cid = Some (ringing c)
  ∧ db w2 = db w1
  ∧ outbox w2
    = (outbox w
       ++ [mkEvent (Call.callerId c) "call:ringing" (CallRingingPayload cid)
             now;
           mkEvent (Call.callerId c) "call:ringing" (CallRingingPayload cid)
             now'])%list.
Proof.
  intros Hc w1 w2. subst w2 w1.
  rewrite (reportRinging_run _ _ now w c) by done.
  cbn [snd db calls with_calls outbox].
  rewrite (reportRinging_run _ _ now' _ (ringing c));
    [|by cbn [snd db calls with_calls]; rewrite lookup_insert_eq|done].
  cbn [snd db calls with_calls outbox users conversations messages].
  rewrite lookup_insert_eq, insert_insert_eq, <- app_assoc.
  split_and!; done.
Qed.

(** X7.  A whole call: the caller initiates at [t0], the receiver reports
    ringing and accepts at [t2], and either party ends at [t3] without
    naming a status.  All four requests succeed, the row ends as ENDED with
    start [t2], end [t3] and the seconds between them, in the room named at
    [t0]; the receiver has been sent [call:incoming], the caller
    [call:ringing] and [call:accepted], and the party that did not hang up
    [call:ended], in that order. *)
Theorem call_lifecycle env callerId receiver ty conversationId newId
    t0 t1 t2 t3 user w :
  configured (livekit env) →
  receiver ≠ "" → ty ≠ "" →
  calls (db w) !! newId = None →
  ty ∈ callTypes env →
  user = Some callerId ∨ user = Some receiver →
  let s1 := initiateCall env (Some callerId) (Some receiver) (Some ty)
              conversationId newId t0 w in
  let s2 := reportRinging (Some receiver) (Some newId) t1 s1.2 in
  let s3 := acceptCall env (Some receiver) (Some newId) t2 s2.2 in
  let s4 := endCall user (Some newId) None t3 s3.2 in
  (code s1.1, code s2.1, code s3.1, code s4.1) = (201, 200, 200, 200)
  ∧ calls (db s4.2) !! newId
    = Some (Call.mk callerId receiver ty conversationId
              (roomId callerId t0) ENDED (Some t2) (Some t3)
              (Some ((t3 - t2) / 1000)%Z))
  ∧ ∃ evs,
      outbox s4.2 = (outbox w ++ evs)%list
      ∧ (λ e, (targetUserId e, eventName e)) <$> evs
        = [(receiver, "call:incoming"); (callerId, "call:ringing");
           (callerId, "call:accepted");
           (if bool_decide (Some callerId = user) then receiver
            else callerId, "call:ended")].
Proof.
  intros [Hk Hs] Hr Ht Hfresh Hty Hactor s1 s2 s3 s4. subst s4 s3 s2 s1.
  rewrite initiateCall_run by done. cbn zeta.
  rewrite generateToken_configured by done. cbn [fst snd].
  set (c1 := initiated callerId receiver ty conversationId t0).
  rewrite (reportRinging_run _ _ _ _ c1);
    [|by cbn [db calls with_calls]; rewrite lookup_insert_eq|done].
  cbn [fst snd].
  rewrite (acceptCall_run _ _ _ _ (ringing c1));
    [|by cbn [db calls with_calls]; rewrite lookup_insert_eq].
  cbn zeta. rewrite generateToken_configured by done. cbn [fst snd].
  rewrite (endCall_run _ _ _ _ _ (accepted t2 (ringing c1)) ENDED);
    [|by cbn [db calls with_calls]; rewrite lookup_insert_eq|done|done].
  cbn [fst snd code db calls with_calls outbox].
  rewrite lookup_insert_eq.
  split_and!; [done|done|].
  eexists [_; _; _; _]. rewrite <- !app_assoc. split; [done|].
  done.
Qed.

(** X8.  The answers of [initiate]: 201 exactly when the receiver and the
    type are given, the caller is known to the request, the new id is free,
    the type names a [CallType] and LiveKit is configured; 400 exactly when
    the receiver or the type is missing or empty; 500 in every other case.
    On 201 the row is created in INITIATED without times, the response
    carries a credential for the caller in the call's room, and the only
    event sent is [call:incoming] to the receiver. *)
Theorem initiateCall_outcome env user receiverId type conversationId newId
    now w :
  let r := (initiateCall env user receiverId type conversationId newId now w).1 in
  let w' := (initiateCall env user receiverId type conversationId newId now w).2 in
  (code r = 400 ↔ truthy receiverId = None ∨ truthy type = None)
  ∧ (code r = 201 ↔
     ∃ callerId receiver ty,
       user = Some callerId ∧ truthy receiverId = Some receiver
       ∧ truthy type = Some ty ∧ calls (db w) !! newId = None
       ∧ ty ∈ callTypes env ∧ configured (livekit env))
  ∧ (code r = 201 ∨ code r = 400 ∨ code r = 500)
  ∧ (∀ callerId receiver ty,
       code r = 201 → user = Some callerId →
       truthy receiverId = Some receiver → truthy type = Some ty →
       calls (db w') !! newId
       = Some (initiated callerId receiver ty conversationId now)
       ∧ body r
         = CallBody newId (initiated callerId receiver ty conversationId now)
             (mkToken (roomId callerId now) callerId
                (User.name <$> users (db w) !! callerId))
       ∧ ∃ p, outbox w'
              = (outbox w ++ [mkEvent receiver "call:incoming" p now])%list).
Proof.
  intros r w'. subst r w'. unfold initiateCall.
  destruct (truthy receiverId) as [receiver|] eqn:Hr; simpl;
    [|split_and!; [split; [by left|done]|split; [done|]|by auto|done];
      by intros (? & ? & ? & ? & ? & ?)].
  destruct (truthy type) as [ty|] eqn:Ht; simpl;
    [|split_and!; [split; [by right|done]|split; [done|]|by auto|done];
      by intros (? & ? & ? & ? & ? & ? & ?)].
  destruct user as [callerId|]; simpl;
    [|split_and!; [split; [done|by intros [?|?]]|split; [done|]|by auto|done];
      by intros (? & ? & ? & ? & ?)].
  unfold call_create. case_bool_decide as Hcreate; simpl.
  - destruct Hcreate as [Hfresh Hty].
    unfold LiveKitService.generateToken.
    case_bool_decide as Hlk; simpl.
    + split_and!; [split; [done|by intros [?|?]]|split; [done|]|by auto|done].
      intros (? & ? & ? & ? & ? & ? & ? & ? & [Hk Hs]). by destruct Hlk.
    + split_and!; [split; [done|by intros [?|?]]|split; [|done]|by auto|].
      * intros _. exists callerId, receiver, ty. split_and!; try done.
        split; intros He; apply Hlk; [by left|by right].
      * intros callerId' receiver' ty' _ ? ? ?. simplify_eq.
        rewrite lookup_insert_eq. split_and!; [done|done|by eexists].
  - split_and!; [split; [done|by intros [?|?]]|split; [done|]|by auto|done].
    intros (? & ? & ? & ? & ? & ? & ? & ? & ?). simplify_eq.
    by destruct Hcreate.
Qed.

(** ** Messages: effects, invariants and composition *)

Lemma sendMessage_failed user conversationId clientId text attachments newId
    now w :
  code (sendMessage user conversationId clientId text attachments newId now
          w).1 ≠ 201 →
  (sendMessage user conversationId clientId text attachments newId now w).2
  = w.
Proof.
  unfold sendMessage. repeat (case_match; try done).
Qed.

Lemma connect_subseteq (u : string) (l : list string) :
  l ⊆ Prisma.connect u l.
Proof. intros x Hx. apply elem_of_connect. by right. Qed.

Lemma ack_delivered_identity members u m :
  message_identity (ack_delivered members u m) = message_identity m.
Proof. unfold ack_delivered. case_bool_decide; done. Qed.

Lemma ack_read_identity members u m :
  message_identity (ack_read members u m) = message_identity m.
Proof. unfold ack_read. case_bool_decide; done. Qed.

Lemma ack_delivered_not_sent members u m :
  Message.status m ≠ SENT → Message.status (ack_delivered members u m) ≠ SENT.
Proof.
  unfold ack_delivered. case_bool_decide; [done|]. simpl.
  destruct members; simpl; [case_bool_decide|]; done.
Qed.

Lemma ack_read_not_sent members u m :
  Message.status m ≠ SENT → Message.status (ack_read members u m) ≠ SENT.
Proof.
  unfold ack_read. case_bool_decide; [done|]. simpl.
  destruct members; simpl; [repeat case_bool_decide|]; done.
Qed.

(** One message request: the world is unchanged, or one row is written and
    events are appended.  A written row is new (SENT, no acknowledgment) or
    keeps every acknowledgment of the one it replaces. *)
Lemma handle_effect q w :
  handle q w = w
  ∨ ∃ id m' evs,
      handle q w
      = mkWorld (with_messages (<[id := m']> (messages (db w))) (db w))
                (outbox w ++ evs)%list
      ∧ match messages (db w) !! id with
        | None =>
            Message.status m' = SENT ∧ Message.deliveredTo m' = []
            ∧ Message.readBy m' = []
        | Some m =>
            message_identity m' = message_identity m
            ∧ Message.deliveredTo m ⊆ Message.deliveredTo m'
            ∧ Message.readBy m ⊆ Message.readBy m'
            ∧ (Message.status m ≠ SENT → Message.status m' ≠ SENT)
        end.
Proof.
  destruct q as [user conversationId clientId text attachments newId now
                |user id toUserId now|user id userId now]; simpl.
  - destruct (decide (code (sendMessage user conversationId clientId text
                              attachments newId now w).1 = 201))
      as [Hok|Hfail]; [|left; by apply sendMessage_failed].
    destruct (sendMessage user conversationId clientId text attachments
                newId now w) as [r w'] eqn:Hrun.
    destruct (sendMessage_created _ _ _ _ _ _ _ _ _ _ Hrun Hok)
      as (userId & cid & members & _ & _ & _ & _ & Hfresh & ->).
    right. eexists newId, _, _. split; [done|]. by rewrite Hfresh.
  - destruct (markDelivered_world user id toUserId now w)
      as [->|(userId & m & _ & Hm & _ & _ & ->)]; [by left|].
    right. eexists id, _, [_]. split; [done|]. rewrite Hm.
    split_and!.
    + apply ack_delivered_identity.
    + rewrite ack_delivered_deliveredTo. apply connect_subseteq.
    + by rewrite ack_delivered_readBy.
    + apply ack_delivered_not_sent.
  - destruct (markRead_world user id userId now w)
      as [->|(userId' & m & _ & Hm & _ & _ & ->)]; [by left|].
    right. eexists id, _, [_]. split; [done|]. rewrite Hm.
    split_and!.
    + apply ack_read_identity.
    + rewrite ack_read_deliveredTo. case_bool_decide; [done|].
      apply connect_subseteq.
    + rewrite ack_read_readBy. apply connect_subseteq.
    + apply ack_read_not_sent.
Qed.

(** X9.  Whatever sequence of sends and acknowledgments is served, the
    users, the calls and the member rows of every conversation stay as they
    were (of a conversation a send rewrites [lastMessageAt] only) and the
    event log only grows; no message disappears or changes its sender,
    receiver, conversation or client id; no acknowledgment is ever removed
    (whoever is in [deliveredTo] or [readBy] stays there); and a message
    that has left SENT never returns to it. *)
Theorem message_handlers_frame qs : ∀ w,
  users (db (run qs w)) = users (db w)
  ∧ conversations (db (run qs w)) = conversations (db w)
  ∧ calls (db (run qs w)) = calls (db w)
  ∧ outbox w `prefix_of` outbox (run qs w)
  ∧ ∀ id m,
      messages (db w) !! id = Some m →
      ∃ m', messages (db (run qs w)) !! id = Some m'
            ∧ message_identity m' = message_identity m
            ∧ Message.deliveredTo m ⊆ Message.deliveredTo m'
            ∧ Message.readBy m ⊆ Message.readBy m'
            ∧ (Message.status m ≠ SENT → Message.status m' ≠ SENT).
Proof.
  induction qs as [|q qs IH]; intros w.
  - split_and!; try done. intros id m Hm. by exists m.
  - cbn [run foldl]. fold (run qs (handle q w)).
    destruct (IH (handle q w)) as (Hu & Hc & Hk & Hout & Hrows).
    destruct (handle_effect q w) as [Heq|(id0 & m0 & evs & Heq & Hrow)].
    { rewrite Heq in *. by split_and!. }
    rewrite Heq in *.
    cbn [db outbox users conversations calls messages with_messages] in *.
    split_and!; try done.
    + etrans; [|exact Hout]. by apply prefix_app_r.
    + intros id m Hm. destruct (decide (id0 = id)) as [->|Hne].
      * rewrite Hm in Hrow. destruct Hrow as (Hid & Hdl & Hrb & Hst).
        destruct (Hrows id m0) as (m' & Hm' & Hid' & Hdl' & Hrb' & Hst');
          [by rewrite lookup_insert_eq|].
        exists m'. split_and!; [done| | | |by auto].
        -- by rewrite Hid'.
        -- by etrans.
        -- by etrans.
      * apply Hrows. by rewrite lookup_insert_ne.
Qed.

Lemma message_sound_conversations d d' m :
  conversations d' = conversations d →
  message_sound d m → message_sound d' m.
Proof.
  intros Hc (Hdl & Hrb & Hsub & members & Hconv & Hrest).
  split_and!; [done..|]. exists members. split; [|done].
  rewrite <- Hconv. by apply conversation_of_frame.
Qed.

Lemma ack_delivered_sound d u m :
  message_sound d m →
  message_sound d (ack_delivered (conversation_of d m) u m).
Proof.
  intros (Hdl & Hrb & Hsub & members & Hconv & Hin & Hsent & Hdel & Hread).
  rewrite Hconv. unfold ack_delivered. case_bool_decide as Hu.
  { split_and!; [done..|]. exists members. by split_and!. }
  split_and!; cbn [Message.deliveredTo Message.readBy Message.status
                   Message.senderId].
  - apply NoDup_app. split_and!; [done| |apply NoDup_singleton].
    intros x Hx ->%list_elem_of_singleton. done.
  - done.
  - intros x Hx. apply elem_of_app. left. by apply Hsub.
  - exists members. split_and!; [done|done|..].
    + case_bool_decide; [done|]. exact Hsent.
    + intros _. by destruct (Message.deliveredTo m).
    + case_bool_decide; [done|]. exact Hread.
Qed.

Lemma ack_read_sound d u m :
  message_sound d m →
  message_sound d (ack_read (conversation_of d m) u m).
Proof.
  intros (Hdl & Hrb & Hsub & members & Hconv & Hin & Hsent & Hdel & Hread).
  rewrite Hconv. unfold ack_read. case_bool_decide as Hu.
  { split_and!; [done..|]. exists members. by split_and!. }
  assert (Hlen : (length (Message.readBy m)
                  ≤ length (Message.readBy m ++ [u]))%nat).
  { rewrite length_app. lia. }
  split_and!; cbn [Message.deliveredTo Message.readBy Message.status
                   Message.senderId].
  - case_bool_decide; [done|].
    apply NoDup_app. split_and!; [done| |apply NoDup_singleton].
    intros x Hx ->%list_elem_of_singleton. done.
  - apply NoDup_app. split_and!; [done| |apply NoDup_singleton].
    intros x Hx ->%list_elem_of_singleton. done.
  - intros x [Hx| ->%list_elem_of_singleton]%elem_of_app.
    + case_bool_decide; [by apply Hsub|].
      apply elem_of_app. left. by apply Hsub.
    + case_bool_decide; [done|]. apply elem_of_app. right.
      by apply list_elem_of_singleton.
  - exists members. split_and!; [done|done|..].
    + repeat case_bool_decide; try done. by destruct (Message.status m).
    + intros _. case_bool_decide as Hd.
      * intros Hnil. rewrite Hnil in Hd. by apply elem_of_nil in Hd.
      * by destruct (Message.deliveredTo m).
    + repeat case_bool_decide; try done.
      intros Hst. specialize (Hread Hst). lia.
Qed.

Lemma store_sound_insert id m' w out :
  store_sound w →
  message_sound (db w) m' →
  store_sound
    (mkWorld (with_messages (<[id := m']> (messages (db w))) (db w)) out).
Proof.
  intros Hinv Hm' id2 m2. cbn [db messages with_messages].
  rewrite lookup_insert. case_decide; intros ?; simplify_eq.
  - by apply (message_sound_conversations (db w)).
  - apply (message_sound_conversations (db w)); [done|]. by eapply Hinv.
Qed.

Lemma handle_store_sound q w : store_sound w → store_sound (handle q w).
Proof.
  intros Hinv.
  destruct q as [user conversationId clientId text attachments newId now
                |user id toUserId now|user id userId now]; simpl.
  - destruct (decide (code (sendMessage user conversationId clientId text
                              attachments newId now w).1 = 201))
      as [Hok|Hfail]; [|by rewrite sendMessage_failed].
    destruct (sendMessage user conversationId clientId text attachments
                newId now w) as [r w'] eqn:Hrun.
    destruct (sendMessage_created _ _ _ _ _ _ _ _ _ _ Hrun Hok)
      as (userId & cid & members & _ & Hcid & Hmembers & Hin & _ & ->).
    apply store_sound_insert; [done|].
    split_and!; cbn [Message.deliveredTo Message.readBy];
      [apply NoDup_nil_2|apply NoDup_nil_2|done|].
    exists members. unfold conversation_of. simpl.
    apply truthy_Some_inv in Hcid as [_ Hne]. rewrite decide_False by done.
    by split_and!.
  - destruct (markDelivered_world user id toUserId now w)
      as [->|(userId & m & _ & Hm & _ & _ & ->)]; [done|].
    apply store_sound_insert; [done|].
    apply ack_delivered_sound. by eapply Hinv.
  - destruct (markRead_world user id userId now w)
      as [->|(userId' & m & _ & Hm & _ & _ & ->)]; [done|].
    apply store_sound_insert; [done|].
    apply ack_read_sound. by eapply Hinv.
Qed.

Lemma store_sound_empty w : messages (db w) = ∅ → store_sound w.
Proof. intros Hempty id m Hm. by rewrite Hempty, lookup_empty in Hm. Qed.

(** X10.  The handlers keep every message row sound, through any sequence
    of sends and acknowledgments (in particular from a store without
    messages): [deliveredTo] and [readBy] have no duplicates, every reader
    is also recorded as a recipient, the sender is a member of the message's
    conversation, a SENT message has no reader, a DELIVERED one has at least
    one recipient recorded, and a READ one has at least [recipientCount]
    readers. *)
Theorem store_sound_preserved qs w :
  store_sound w → store_sound (run qs w).
Proof.
  revert w. induction qs as [|q qs IH]; intros w Hinv; [done|].
  apply IH. by apply handle_store_sound.
Qed.

(** X11.  Acknowledgments below the threshold.  In a conversation where
    fewer users than [recipientCount] have acknowledged, counting the new
    one: a new delivery acknowledgment records the user and leaves the
    status as it was; a new read acknowledgment records the user and sets
    the status to DELIVERED (a READ status is kept), however few users are
    recorded in [deliveredTo].  The recorded users are compared up to
    order. *)
Theorem partial_acknowledgment user id target now w userId m members :
  truthy user = Some userId →
  messages (db w) !! id = Some m →
  is_Some (users (db w) !! js_or target userId) →
  conversation_of (db w) m = Some members →
  (js_or target userId ∉ Message.deliveredTo m →
   (S (length (Message.deliveredTo m))
    < recipientCount members (Message.senderId m))%nat →
   status_of id (markDelivered user id target now w).2
   = Some (Message.status m)
   ∧ deliveredTo_of id (markDelivered user id target now w).2
     ≡ₚ js_or target userId :: Message.deliveredTo m)
  ∧ (js_or target userId ∉ Message.readBy m →
     (S (length (Message.readBy m))
      < recipientCount members (Message.senderId m))%nat →
     status_of id (markRead user id target now w).2
     = Some (if decide (Message.status m = READ) then READ else DELIVERED)
     ∧ readBy_of id (markRead user id target now w).2
       ≡ₚ js_or target userId :: Message.readBy m).
Proof.
  intros Hu Hm Husr Hconv. split.
  - intros Hnin Hlt.
    rewrite (markDelivered_run _ _ _ _ _ userId m) by done.
    rewrite bool_decide_eq_false_2 by done.
    unfold status_of, deliveredTo_of. cbn [snd db messages with_messages].
    rewrite lookup_insert_eq. simpl.
    unfold ack_delivered. rewrite bool_decide_eq_false_2 by done.
    rewrite Hconv. simpl. rewrite bool_decide_eq_false_2;
      [by rewrite Permutation_app_comm|].
    rewrite length_app. simpl. lia.
  - intros Hnin Hlt.
    rewrite (markRead_run _ _ _ _ _ userId m) by done.
    rewrite bool_decide_eq_false_2 by done.
    unfold status_of, readBy_of. cbn [snd db messages with_messages].
    rewrite lookup_insert_eq. simpl.
    unfold ack_read. rewrite bool_decide_eq_false_2 by done.
    rewrite Hconv. simpl.
    rewrite (bool_decide_eq_false_2 (_ ≤ _)%nat);
      [|rewrite length_app; simpl; lia].
    rewrite Permutation_app_comm. cbn [app].
    case_decide as Hst.
    + rewrite bool_decide_eq_false_2 by (intros Hne; by apply Hne).
      by rewrite Hst.
    + by rewrite bool_decide_eq_true_2.
Qed.

(** X12.  A message without a conversation (no [conversationId], or one
    that names no stored conversation) keeps its status under every
    delivery and read acknowledgment, whoever sends it and whatever it
    answers: the promotion is skipped altogether. *)
Theorem orphan_message_status_fixed user id target now w m :
  messages (db w) !! id = Some m →
  conversation_of (db w) m = None →
  status_of id (markDelivered user id target now w).2
  = Some (Message.status m)
  ∧ status_of id (markRead user id target now w).2 = Some (Message.status m).
Proof.
  intros Hm Hconv. unfold status_of. split.
  - destruct (markDelivered_world user id target now w)
      as [->|(userId & m' & _ & Hm' & _ & _ & ->)]; [by rewrite Hm|].
    simplify_eq. cbn [db messages with_messages].
    rewrite lookup_insert_eq, Hconv. simpl.
    unfold ack_delivered. by case_bool_decide.
  - destruct (markRead_world user id target now w)
      as [->|(userId & m' & _ & Hm' & _ & _ & ->)]; [by rewrite Hm|].
    simplify_eq. cbn [db messages with_messages].
    rewrite lookup_insert_eq, Hconv. simpl.
    unfold ack_read. by case_bool_decide.
Qed.

(** X13.  An acknowledgment for a user id that has no row in [users] and
    is not recorded yet is answered 500 and records nothing: the
    [connect] to the join table fails, no status is written and no event is
    sent. *)
Theorem ack_for_unknown_user user id target now w userId m :
  truthy user = Some userId →
  messages (db w) !! id = Some m →
  users (db w) !! js_or target userId = None →
  (js_or target userId ∉ Message.deliveredTo m →
   markDelivered user id target now w
   = (res 500 (ErrorBody "Failed to mark message as delivered"), w))
  ∧ (js_or target userId ∉ Message.readBy m →
     markRead user id target now w
     = (res 500 (ErrorBody "Failed to mark message as read"), w)).
Proof.
  intros Hu Hm Husr. split; intros Hnin.
  - rewrite (markDelivered_unknown_user _ _ _ _ _ userId m) by done.
    by rewrite bool_decide_eq_false_2.
  - rewrite (markRead_unknown_user _ _ _ _ _ userId m) by done.
    by rewrite bool_decide_eq_false_2.
Qed.

Lemma recipientIds_spec (members : list string) (userId u : string) :
  u ∈ recipientIds members userId ↔ u ∈ members ∧ u ≠ userId.
Proof. unfold recipientIds. rewrite list_elem_of_filter. tauto. Qed.

(** X14.  The fan-out of a successful send: one [message:new] per member
    other than the sender, in the order of the member rows, and nothing
    else; the sender gets none; with one row per member nobody gets two;
    and the number of events is the [recipientCount] that the
    acknowledgment handlers later use as their threshold. *)
Theorem sendMessage_fanout user conversationId clientId text attachments
    newId now w r w' :
  sendMessage user conversationId clientId text attachments newId now w
    = (r, w') →
  code r = 201 →
  ∃ userId cid members evs,
    truthy user = Some userId
    ∧ truthy conversationId = Some cid
    ∧ conversations (db w) !! cid = Some members
    ∧ outbox w' = (outbox w ++ evs)%list
    ∧ targetUserId <$> evs = recipientIds members userId
    ∧ Forall (λ e, eventName e = "message:new") evs
    ∧ (userId ∉ targetUserId <$> evs)
    ∧ (∀ u, u ∈ targetUserId <$> evs ↔ u ∈ members ∧ u ≠ userId)
    ∧ (NoDup members → NoDup (targetUserId <$> evs))
    ∧ length evs = recipientCount members userId.
Proof.
  intros Hrun Hcode.
  destruct (sendMessage_created _ _ _ _ _ _ _ _ _ _ Hrun Hcode)
    as (userId & cid & members & Hu & Hc & Hmembers & _ & _ & ->).
  eexists userId, cid, members, _. cbn [outbox].
  split_and!; [done|done|done|done|..].
  - rewrite <- list_fmap_compose. simpl. apply list_fmap_id.
  - apply Forall_fmap, Forall_forall. done.
  - rewrite <- list_fmap_compose. simpl. rewrite list_fmap_id.
    intros Hin%recipientIds_spec. by destruct Hin.
  - intros u. rewrite <- list_fmap_compose. simpl. rewrite list_fmap_id.
    apply recipientIds_spec.
  - intros Hnd. rewrite <- list_fmap_compose. simpl. rewrite list_fmap_id.
    by apply NoDup_filter.
  - by rewrite length_fmap.
Qed.

(** X15.  What [sendMessage] never stores: a 201 is only given to an
    authenticated member of an existing conversation whose request has a
    text or an attachment and whose attachments all have a type and a url;
    the row is created SENT, without acknowledgments, under the new id.
    Every other answer leaves the world untouched: no row, no event. *)
Theorem sendMessage_guard user conversationId clientId text attachments
    newId now w :
  let r := (sendMessage user conversationId clientId text attachments newId
              now w).1 in
  let w' := (sendMessage user conversationId clientId text attachments newId
               now w).2 in
  (code r = 201 →
   ∃ userId cid members,
     truthy user = Some userId
     ∧ truthy conversationId = Some cid
     ∧ conversations (db w) !! cid = Some members
     ∧ userId ∈ members
     ∧ (is_Some (truthy text) ∨ default [] attachments ≠ [])
     ∧ Forall (λ a, is_Some (truthy (att_type a))
                    ∧ is_Some (truthy (att_url a)))
              (default [] attachments)
     ∧ messages (db w) !! newId = None
     ∧ messages (db w') !! newId
       = Some (Message.mk userId (receiverId members userId) (Some cid)
                 (truthy clientId) SENT [] []))
  ∧ (code r ≠ 201 → w' = w).
Proof.
  intros r w'. subst r w'. split; [|apply sendMessage_failed].
  unfold sendMessage.
  destruct (truthy user) as [userId|]; [|done].
  destruct (truthy conversationId) as [cid|]; [|done].
  case_bool_decide as Hcontent; [done|].
  destruct (conversations (db w) !! cid) as [members|] eqn:Hc; [|done].
  case_bool_decide as Hmem; simpl; [|done].
  destruct (existsb _ _) eqn:Hatt; [done|].
  unfold Prisma.message_create.
  case_bool_decide as Hcreate; [|done].
  destruct Hcreate as (Hfresh & _).
  rewrite foldl_sendEventToUser. cbn [fst snd code db messages with_messages].
  intros _. exists userId, cid, members. rewrite lookup_insert_eq.
  split_and!; try done.
  - destruct (truthy text); [left; by eexists|]. right.
    intros Hnil. apply Hcontent. by split.
  - apply Forall_forall. intros a Ha.
    destruct (truthy (att_type a)) as [ty|] eqn:Hty;
      destruct (truthy (att_url a)) as [url|] eqn:Hurl;
      try (split; by eexists); exfalso;
      (assert (existsb attachment_invalid (default [] attachments) = true)
         as Hex; [|congruence]);
      apply existsb_exists; exists a;
      (split; [by apply list_elem_of_In|]);
      unfold attachment_invalid; rewrite Hty, Hurl;
      apply bool_decide_eq_true; auto.
Qed.

Lemma sendMessage_created_clientId user conversationId clientId text
    attachments newId now w k :
  code (sendMessage user conversationId clientId text attachments newId now
          w).1 = 201 →
  truthy clientId = Some k →
  map_Forall (λ _ m', Message.clientId m' ≠ Some k) (messages (db w)).
Proof.
  unfold sendMessage. intros Hcode Hk.
  repeat (case_match; try done).
  unfold Prisma.message_create in *. case_bool_decide as Hcreate; [|done].
  destruct Hcreate as (_ & _ & _ & Huniq). simpl in Huniq.
  rewrite Hk in Huniq. apply Huniq. by eexists.
Qed.

(** X16.  A client id is used at most once.  After a send with a
    (non-empty) client id has succeeded, no later send carrying the same
    client id is answered 201, whoever sends it and wherever, and it changes
    nothing; in particular a retry of the same request, under a new row id,
    is answered 500. *)
Theorem clientId_not_reusable user conversationId clientId text attachments
    newId now w r w1 k :
  sendMessage user conversationId clientId text attachments newId now w
    = (r, w1) →
  code r = 201 →
  truthy clientId = Some k →
  (∀ user2 conversationId2 clientId2 text2 attachments2 newId2 now2,
     truthy clientId2 = Some k →
     code (sendMessage user2 conversationId2 clientId2 text2 attachments2
             newId2 now2 w1).1 ≠ 201
     ∧ (sendMessage user2 conversationId2 clientId2 text2 attachments2
          newId2 now2 w1).2 = w1)
  ∧ (∀ newId2 now2,
       sendMessage user conversationId clientId text attachments newId2 now2
         w1
       = (res 500 (ErrorBody "Failed to send message"), w1)).
Proof.
  intros Hrun Hcode Hk.
  destruct (sendMessage_created _ _ _ _ _ _ _ _ _ _ Hrun Hcode)
    as (userId & cid & members & Hu & Hc & Hmembers & Hin & Hfresh & Hw1).
  assert (Hrow : messages (db w1) !! newId
                 = Some (Message.mk userId (receiverId members userId)
                           (Some cid) (Some k) SENT [] [])).
  { rewrite Hw1. cbn [db messages with_messages].
    by rewrite lookup_insert_eq, Hk. }
  assert (Hno : ∀ user2 conversationId2 clientId2 text2 attachments2 newId2
                  now2,
            truthy clientId2 = Some k →
            code (sendMessage user2 conversationId2 clientId2 text2
                    attachments2 newId2 now2 w1).1 ≠ 201).
  { intros user2 conversationId2 clientId2 text2 attachments2 newId2 now2
      Hk2 Hcode2.
    pose proof (sendMessage_created_clientId _ _ _ _ _ _ _ _ _ Hcode2 Hk2)
      as Huniq.
    by apply (Huniq newId _ Hrow). }
  split.
  - intros user2 conversationId2 clientId2 text2 attachments2 newId2 now2
      Hk2.
    split; [by apply Hno|]. apply sendMessage_failed. by apply Hno.
  - intros newId2 now2.
    pose proof (Hno user conversationId clientId text attachments newId2 now2
                  Hk) as Hfail.
    revert Hfail. clear Hno.
    assert (Hconv : conversations (db w1) = conversations (db w))
      by by rewrite Hw1.
    unfold sendMessage in Hrun |- *. rewrite Hconv, Hu, Hc, Hmembers in *.
    case_bool_decide; [by simplify_eq|].
    rewrite (bool_decide_eq_true_2 (userId ∈ members)) in * by done.
    simpl in *.
    destruct (existsb _ _); [by simplify_eq|].
    destruct (Prisma.message_create newId2 _ (db w1)); [|done].
    rewrite foldl_sendEventToUser. simpl. done.
Qed.

(** *** Runs of acknowledgments, once more *)

Lemma ack_delivered_all_frame members acks : ∀ m,
  message_identity (ack_delivered_all members acks m) = message_identity m
  ∧ Message.readBy (ack_delivered_all members acks m) = Message.readBy m.
Proof.
  induction acks as [|a rest IH]; intros m; [done|].
  rewrite ack_delivered_all_cons.
  destruct (IH (ack_delivered members a.1 m)) as [-> ->].
  by rewrite ack_delivered_identity, ack_delivered_readBy.
Qed.

Lemma deliverAll_status id acks w m members :
  messages (db w) !! id = Some m →
  conversation_of (db w) m = Some members →
  Forall (λ a, a.1 ≠ "" ∧ is_Some (users (db w) !! a.1)) acks →
  NoDup acks.*1 →
  (recipientCount members (Message.senderId m) ≤ length acks)%nat →
  Exists (λ a, a.1 ∉ Message.deliveredTo m) acks →
  status_of id (deliverAll id acks w) = Some DELIVERED.
Proof.
  intros Hm Hconv Hok Hnd Hlen Hnew.
  destruct (deliverAll_row id acks w m Hm Hok) as (Hrow & _).
  unfold status_of. rewrite Hrow, Hconv. simpl. f_equal.
  apply ack_delivered_all_status; [done|].
  etrans; [exact Hlen|]. rewrite <- (length_fmap fst acks).
  apply covers_length; [done|].
  intros u Hu. by apply ack_delivered_all_covers.
Qed.

Lemma readAll_status id acks w m members :
  messages (db w) !! id = Some m →
  conversation_of (db w) m = Some members →
  Forall (λ a, a.1 ≠ "" ∧ is_Some (users (db w) !! a.1)) acks →
  NoDup acks.*1 →
  (recipientCount members (Message.senderId m) ≤ length acks)%nat →
  Exists (λ a, a.1 ∉ Message.readBy m) acks →
  status_of id (readAll id acks w) = Some READ.
Proof.
  intros Hm Hconv Hok Hnd Hlen Hnew.
  destruct (readAll_row id acks w m Hm Hok) as (Hrow & _).
  unfold status_of. rewrite Hrow, Hconv. simpl. f_equal.
  apply ack_read_all_status; [done|].
  etrans; [exact Hlen|]. rewrite <- (length_fmap fst acks).
  apply covers_length; [done|].
  intros u Hu. by apply ack_read_all_covers.
Qed.

Lemma nonempty_Exists {A} (P : A → Prop) (l : list A) :
  l ≠ [] → (∀ x, P x) → Exists P l.
Proof. destruct l; [done|]. intros _ HP. apply Exists_cons. by left. Qed.

(** X17.  From send to READ.  A member sends to a conversation with one row
    per member and at least one other member.  If the users who were sent
    [message:new], in any order, each acknowledge delivery, the message is
    DELIVERED; if they each acknowledge reading, in any order, it is READ,
    whether or not the deliveries were acknowledged first. *)
Theorem send_then_all_acknowledge user conversationId clientId text
    attachments newId now w r w1 userId cid members
    (dacks racks : list (string * Z)) :
  sendMessage user conversationId clientId text attachments newId now w
    = (r, w1) →
  code r = 201 →
  truthy user = Some userId →
  truthy conversationId = Some cid →
  conversations (db w) !! cid = Some members →
  NoDup members →
  recipientIds members userId ≠ [] →
  dacks.*1 ≡ₚ recipientIds members userId →
  racks.*1 ≡ₚ recipientIds members userId →
  Forall (λ a, a.1 ≠ "" ∧ is_Some (users (db w) !! a.1)) (dacks ++ racks) →
  status_of newId w1 = Some SENT
  ∧ status_of newId (deliverAll newId dacks w1) = Some DELIVERED
  ∧ status_of newId (readAll newId racks w1) = Some READ
  ∧ status_of newId (readAll newId racks (deliverAll newId dacks w1))
    = Some READ.
Proof.
  intros Hrun Hcode Hu Hc Hmembers Hnd Hne Hd Hr Hok.
  apply Forall_app in Hok as [Hdok Hrok].
  destruct (sendMessage_created _ _ _ _ _ _ _ _ _ _ Hrun Hcode)
    as (userId' & cid' & members' & Hu' & Hc' & Hmembers' & _ & _ & Hw1).
  simplify_eq.
  set (m := Message.mk userId (receiverId members userId) (Some cid)
              (truthy clientId) SENT [] []).
  set (w1 := mkWorld (with_messages (<[newId := m]> (messages (db w))) (db w))
               _).
  assert (Hm : messages (db w1) !! newId = Some m)
    by apply lookup_insert_eq.
  assert (Hconv : conversation_of (db w1) m = Some members).
  { unfold conversation_of. simpl.
    apply truthy_Some_inv in Hc as [_ Hcne]. by rewrite decide_False. }
  assert (Hlen : ∀ acks : list (string * Z),
            acks.*1 ≡ₚ recipientIds members userId →
            NoDup acks.*1
            ∧ (recipientCount members (Message.senderId m) ≤ length acks)%nat
            ∧ acks ≠ []).
  { intros acks Hp. split_and!.
    - rewrite Hp. by apply NoDup_filter.
    - unfold recipientCount. simpl. fold (recipientIds members userId).
      by rewrite <- Hp, length_fmap.
    - intros ->. simpl in Hp. symmetry in Hp.
      by apply Permutation_nil_r in Hp. }
  destruct (Hlen dacks Hd) as (Hdnd & Hdlen & Hdne).
  destruct (Hlen racks Hr) as (Hrnd & Hrlen & Hrne).
  split_and!.
  - unfold status_of. by rewrite Hm.
  - apply (deliverAll_status _ _ _ m members); try done.
    apply nonempty_Exists; [done|]. intros a. apply not_elem_of_nil.
  - apply (readAll_status _ _ _ m members); try done.
    apply nonempty_Exists; [done|]. intros a. apply not_elem_of_nil.
  - destruct (deliverAll_row newId dacks w1 m Hm Hdok)
      as (Hrow & Husers & Hconvs).
    rewrite Hconv in Hrow.
    destruct (ack_delivered_all_frame (Some members) dacks m)
      as [Hid Hrb].
    unfold message_identity in Hid. injection Hid as Hsnd _ Hcid _.
    eapply (readAll_status _ _ _ _ members); [exact Hrow| | | | |].
    + etrans; [|exact Hconv].
      apply conversation_of_frame; [done|exact Hcid].
    + by rewrite Husers.
    + done.
    + by rewrite Hsnd.
    + rewrite Hrb. apply nonempty_Exists; [done|].
      intros a. apply not_elem_of_nil.
Qed.

(** ** Instances *)

Lemma token_failure_partial_effect_witness :
  initiateCall Examples.env_no_livekit (Some "alice") (Some "bob")
    (Some "VIDEO") None "k1" 1000 Scenario.w0
  = (res 500 (ErrorBody "Failed to initiate call"),
     mkWorld
       (with_calls (<["k1" := Examples.k1]> (calls (db Scenario.w0)))
          (db Scenario.w0))
       (outbox Scenario.w0)).
Proof.
  destruct (token_failure_partial_effect Examples.env_no_livekit)
    as [Hinit _].
  - intros [Hk _]. by apply Hk.
  - apply Hinit; [done|done|reflexivity|].
    apply (bool_decide_unpack _). vm_compute. exact I.
Defined.

Lemma accept_then_end_duration_witness :
  ∃ c2 d,
    calls (db (endCall (Some "alice") (Some "k1") None 4700
                 (acceptCall Scenario.env (Some "bob") (Some "k1") 1500
                    Scenario.called.2).2).2) !! "k1" = Some c2
    ∧ Call.status c2 = ENDED
    ∧ Call.duration c2 = Some d
    ∧ (1000 * d ≤ 4700 - 1500 < 1000 * d + 1000)%Z.
Proof.
  destruct (accept_then_end_duration Scenario.env "k1" 1500 4700
              Scenario.called.2 Examples.k1 (Some "alice") None ENDED)
    as [(c2 & d & Hc2 & Hst & _ & _ & Hd & Hbounds & _) _].
  - vm_compute; reflexivity.
  - left. reflexivity.
  - reflexivity.
  - exists c2, d. exact (conj Hc2 (conj Hst (conj Hd Hbounds))).
Defined.

Lemma reportRinging_repeat_witness :
  db (reportRinging (Some "bob") (Some "k1") 1300
        (reportRinging (Some "bob") (Some "k1") 1200 Scenario.called.2).2).2
  = db (reportRinging (Some "bob") (Some "k1") 1200 Scenario.called.2).2.
Proof.
  destruct (reportRinging_repeat "k1" 1200 1300 Scenario.called.2
              Examples.k1) as (_ & Hdb & _).
  - vm_compute; reflexivity.
  - exact Hdb.
Defined.

Lemma call_lifecycle_witness :
  calls (db (endCall (Some "bob") (Some "k1") None 9000
               (acceptCall Scenario.env (Some "bob") (Some "k1") 3000
                  (reportRinging (Some "bob") (Some "k1") 2000
                     (initiateCall Scenario.env (Some "alice") (Some "bob")
                        (Some "VIDEO") None "k1" 1000 Scenario.w0).2).2).2).2)
    !! "k1"
  = Some (Call.mk "alice" "bob" "VIDEO" None (roomId "alice" 1000) ENDED
            (Some 3000%Z) (Some 9000%Z) (Some ((9000 - 3000) / 1000)%Z)).
Proof.
  destruct (call_lifecycle Scenario.env "alice" "bob" "VIDEO" None "k1"
              1000 2000 3000 9000 (Some "bob") Scenario.w0)
    as (_ & Hrow & _).
  - split; done.
  - done.
  - done.
  - reflexivity.
  - apply (bool_decide_unpack _). vm_compute. exact I.
  - right. reflexivity.
  - exact Hrow.
Defined.

Lemma store_sound_preserved_witness :
  store_sound
    (run [SendMessage (Some "alice") (Some "c2") None (Some "hi") None "m2"
            1000;
          MarkRead (Some "bob") "m2" None 2000;
          MarkDelivered (Some "carol") "m2" None 3000]
       Scenario.w0).
Proof.
  apply (store_sound_preserved _ Scenario.w0).
  apply store_sound_empty. reflexivity.
Defined.

Lemma partial_acknowledgment_witness :
  status_of "m2" (markRead (Some "bob") "m2" None 2000 Scenario.sent_group).2
  = Some DELIVERED
  ∧ readBy_of "m2"
      (markRead (Some "bob") "m2" None 2000 Scenario.sent_group).2
    ≡ₚ ["bob"].
Proof.
  destruct (partial_acknowledgment (Some "bob") "m2" None 2000
              Scenario.sent_group "bob" Examples.m2
              ["alice"; "bob"; "carol"]) as [_ Hread].
  - reflexivity.
  - vm_compute; reflexivity.
  - eexists. vm_compute. reflexivity.
  - vm_compute; reflexivity.
  - apply Hread; [simpl; apply not_elem_of_nil|vm_compute; lia].
Defined.

Lemma orphan_message_status_fixed_witness :
  status_of "m0" (markDelivered (Some "bob") "m0" None 2000
                    Examples.w_orphan).2 = Some SENT
  ∧ status_of "m0" (markRead (Some "bob") "m0" None 2000
                      Examples.w_orphan).2 = Some SENT.
Proof.
  apply (orphan_message_status_fixed (Some "bob") "m0" None 2000
           Examples.w_orphan Examples.orphan); vm_compute; reflexivity.
Defined.

Lemma ack_for_unknown_user_witness :
  markDelivered (Some "bob") "m1" (Some "mallory") 2000 Scenario.sent
  = (res 500 (ErrorBody "Failed to mark message as delivered"),
     Scenario.sent).
Proof.
  destruct (ack_for_unknown_user (Some "bob") "m1" (Some "mallory") 2000
              Scenario.sent "bob" Examples.m1) as [Hd _].
  - reflexivity.
  - vm_compute; reflexivity.
  - vm_compute; reflexivity.
  - apply Hd. simpl. apply not_elem_of_nil.
Defined.

Lemma sendMessage_fanout_witness :
  ∃ userId cid members evs,
    truthy (Some "alice") = Some userId
    ∧ truthy (Some "c2") = Some cid
    ∧ conversations (db Scenario.w0) !! cid = Some members
    ∧ outbox Scenario.sent_group = (outbox Scenario.w0 ++ evs)%list
    ∧ targetUserId <$> evs = recipientIds members userId
    ∧ Forall (λ e, eventName e = "message:new") evs
    ∧ (userId ∉ targetUserId <$> evs)
    ∧ (∀ u, u ∈ targetUserId <$> evs ↔ u ∈ members ∧ u ≠ userId)
    ∧ (NoDup members → NoDup (targetUserId <$> evs))
    ∧ length evs = recipientCount members userId.
Proof.
  apply (sendMessage_fanout (Some "alice") (Some "c2") None (Some "hi") None
           "m2" 1000 Scenario.w0
           (sendMessage (Some "alice") (Some "c2") None (Some "hi") None
              "m2" 1000 Scenario.w0).1);
    vm_compute; reflexivity.
Defined.

Lemma clientId_not_reusable_witness :
  sendMessage (Some "alice") (Some "c2") (Some "tag-1") (Some "hi") None
    "m5" 2000 Examples.sent_tagged.2
  = (res 500 (ErrorBody "Failed to send message"), Examples.sent_tagged.2).
Proof.
  destruct (clientId_not_reusable (Some "alice") (Some "c2") (Some "tag-1")
              (Some "hi") None "m4" 1000 Scenario.w0
              Examples.sent_tagged.1 Examples.sent_tagged.2 "tag-1")
    as [_ Hretry].
  - vm_compute; reflexivity.
  - vm_compute; reflexivity.
  - reflexivity.
  - apply Hretry.
Defined.

Lemma send_then_all_acknowledge_witness :
  status_of "m2" Scenario.sent_group = Some SENT
  ∧ status_of "m2"
      (deliverAll "m2" [("carol", 2000%Z); ("bob", 3000%Z)]
         Scenario.sent_group) = Some DELIVERED
  ∧ status_of "m2"
      (readAll "m2" [("bob", 4000%Z); ("carol", 5000%Z)]
         Scenario.sent_group) = Some READ
  ∧ status_of "m2"
      (readAll "m2" [("bob", 4000%Z); ("carol", 5000%Z)]
         (deliverAll "m2" [("carol", 2000%Z); ("bob", 3000%Z)]
            Scenario.sent_group)) = Some READ.
Proof.
  apply (send_then_all_acknowledge (Some "alice") (Some "c2") None
           (Some "hi") None "m2" 1000 Scenario.w0
           (sendMessage (Some "alice") (Some "c2") None (Some "hi") None
              "m2" 1000 Scenario.w0).1
           Scenario.sent_group "alice" "c2" ["alice"; "bob"; "carol"]).
  - vm_compute; reflexivity.
  - vm_compute; reflexivity.
  - reflexivity.
  - reflexivity.
  - vm_compute; reflexivity.
  - apply (bool_decide_unpack _). vm_compute. exact I.
  - vm_compute. discriminate.
  - vm_compute. apply perm_swap.
  - vm_compute. reflexivity.
  - apply (bool_decide_unpack _). vm_compute. exact I.
Defined.

(** ** Reading a conversation page by page *)

Lemma StronglySorted_sublist {A} (R : relation A) (l1 l2 : list A) :
  l1 `sublist_of` l2 → StronglySorted R l2 → StronglySorted R l1.
Proof.
  induction 1 as [|x l1 l2 Hsub IH|x l1 l2 Hsub IH]; intros Hs.
  - constructor.
  - apply StronglySorted_cons in Hs as [Hall Hs].
    apply StronglySorted_cons. split; [|by apply IH].
    apply Forall_forall. intros y Hy. rewrite Forall_forall in Hall.
    apply Hall. by eapply elem_of_sublist.
  - apply StronglySorted_cons in Hs as [_ Hs]. by apply IH.
Qed.

Section Query_properties.

Context (createdAt : string → Z).

#[local] Instance newer_first_total : Total (newer_first createdAt).
Proof. intros a b. unfold newer_first. lia. Qed.

#[local] Instance newer_first_trans : Transitive (newer_first createdAt).
Proof. intros a b c. unfold newer_first. lia. Qed.

(** The rows that match the [where] clause. *)
Lemma elem_of_matching d cid beforeDate (row : string * Message.t) :
  row ∈ merge_sort (newer_first createdAt)
          (filter (λ row, Message.conversationId row.2 = Some cid
                          ∧ (createdAt row.1 < beforeDate)%Z)
                  (map_to_list (messages d)))
  ↔ messages d !! row.1 = Some row.2
    ∧ Message.conversationId row.2 = Some cid
    ∧ (createdAt row.1 < beforeDate)%Z.
Proof.
  rewrite merge_sort_Permutation, list_elem_of_filter.
  destruct row as [id m]. rewrite elem_of_map_to_list. simpl. tauto.
Qed.

Lemma NoDup_matching d cid beforeDate :
  NoDup (merge_sort (newer_first createdAt)
           (filter (λ row, Message.conversationId row.2 = Some cid
                           ∧ (createdAt row.1 < beforeDate)%Z)
                   (map_to_list (messages d)))).*1.
Proof.
  rewrite merge_sort_Permutation.
  apply NoDup_fmap_fst.
  - intros id m1 m2 [_ H1]%list_elem_of_filter [_ H2]%list_elem_of_filter.
    apply elem_of_map_to_list in H1, H2. congruence.
  - apply NoDup_filter, NoDup_map_to_list.
Qed.

Lemma prisma_take_sublist {A} (n : Z) (l : list A) :
  prisma_take n l `sublist_of` l.
Proof.
  unfold prisma_take. case_decide; [apply sublist_take|apply sublist_drop].
Qed.

(** What [findMany_before] returns. *)
Lemma findMany_before_spec d cid t lim :
  ((0 ≤ lim)%Z →
   (Z.of_nat (length (findMany_before createdAt d cid t lim)) ≤ lim)%Z)
  ∧ Forall (λ row, messages d !! row.1 = Some row.2
                   ∧ Message.conversationId row.2 = Some cid
                   ∧ (createdAt row.1 < t)%Z)
           (findMany_before createdAt d cid t lim)
  ∧ NoDup (findMany_before createdAt d cid t lim).*1
  ∧ StronglySorted (newer_first createdAt)
      (findMany_before createdAt d cid t lim).
Proof.
  pose proof (prisma_take_sublist lim
                (merge_sort (newer_first createdAt)
                   (filter (λ row, Message.conversationId row.2 = Some cid
                                   ∧ (createdAt row.1 < t)%Z)
                           (map_to_list (messages d))))) as Hsub.
  fold (findMany_before createdAt d cid t lim) in Hsub.
  split_and!.
  - intros Hpos. unfold findMany_before, prisma_take.
    rewrite decide_True by done. rewrite length_take. lia.
  - apply Forall_forall. intros row Hrow.
    apply (elem_of_matching d cid t). by eapply elem_of_sublist.
  - eapply sublist_NoDup; [apply NoDup_matching|].
    by apply fmap_sublist.
  - eapply StronglySorted_sublist; [exact Hsub|].
    apply (StronglySorted_merge_sort _).
Qed.

(** A matching row that a non-negative [take] leaves out: the page is full
    and holds only rows at least as new. *)
Lemma findMany_before_left_out d cid t lim id m :
  (0 ≤ lim)%Z →
  messages d !! id = Some m →
  Message.conversationId m = Some cid →
  (createdAt id < t)%Z →
  id ∉ (findMany_before createdAt d cid t lim).*1 →
  Z.of_nat (length (findMany_before createdAt d cid t lim)) = lim
  ∧ Forall (λ row, (createdAt id ≤ createdAt row.1)%Z)
           (findMany_before createdAt d cid t lim).
Proof.
  intros Hpos Hm Hc Ht Hout. unfold findMany_before, prisma_take in *.
  rewrite decide_True in * by done.
  set (S := merge_sort _ _) in *.
  assert (Hin : (id, m) ∈ S) by by apply elem_of_matching.
  assert (Hsorted : StronglySorted (newer_first createdAt) S)
    by apply (StronglySorted_merge_sort _).
  rewrite <- (take_drop (Z.to_nat lim) S) in Hin, Hsorted.
  apply elem_of_app in Hin as [Hin|Hin].
  { destruct Hout. apply list_elem_of_fmap. by exists (id, m). }
  split.
  - rewrite length_take.
    assert (Z.to_nat lim < length S)%nat; [|lia].
    destruct (decide (Z.to_nat lim < length S)%nat) as [|Hge]; [done|].
    rewrite drop_ge in Hin by lia. by apply elem_of_nil in Hin.
  - apply Forall_forall. intros row Hrow.
    apply (StronglySorted_app_1_elem_of _ _ _ _ _ Hsorted Hrow Hin).
Qed.

End Query_properties.

Section Pagination_properties.

Context (parseInt parseDate : string → option Z) (toISOString : Z → string)
        (createdAt : string → Z).

(** The answer 200 of [getMessages], taken apart. *)
Lemma getMessages_ok user conversationId before limit now w msgs lim hasMore
    cursor :
  getMessages parseInt parseDate toISOString createdAt user conversationId
    before limit now w = (200, Page msgs lim hasMore cursor) →
  ∃ userId cid members n t,
    truthy user = Some userId
    ∧ truthy conversationId = Some cid
    ∧ conversations (db w) !! cid = Some members
    ∧ userId ∈ members
    ∧ parseInt (js_or limit "20") = Some n
    ∧ lim = Z.min n 100
    ∧ match truthy before with
      | Some b => parseDate b
      | None => Some now
      end = Some t
    ∧ msgs = format_message toISOString createdAt (db w)
               <$> findMany_before createdAt (db w) cid t lim
    ∧ hasMore = bool_decide
                  (Z.of_nat (length (findMany_before createdAt (db w) cid
                                       t lim)) = lim)
    ∧ cursor = (if hasMore
                then (λ row, toISOString (createdAt row.1))
                       <$> last (findMany_before createdAt (db w) cid t lim)
                else None).
Proof.
  unfold getMessages. intros Hrun.
  destruct (truthy user) as [userId|]; [|done].
  destruct (truthy conversationId) as [cid|]; [|done].
  destruct (conversations (db w) !! cid) as [members|] eqn:Hc; [|done].
  case_bool_decide as Hmem; simpl in Hrun; [|done].
  destruct (match truthy before with Some b => parseDate b | None => Some now
            end) as [t|] eqn:Hbefore; [|done].
  destruct (parseInt (js_or limit "20")) as [n|] eqn:Hn; simpl in Hrun;
    [|done].
  simplify_eq. exists userId, cid, members, n, t.
  split_and!; [done..|].
  rewrite fmap_last. by destruct (last _).
Qed.

(** X18.  A page of [getMessages] is only given to a member of the
    conversation; it holds at most [limit] messages, and never more than 100;
    every message on it is a stored message of that conversation created
    strictly before the cursor (or before now, without a cursor); no message
    is listed twice; and the page is ordered newest first. *)
Theorem getMessages_page user conversationId before limit now w msgs lim
    hasMore cursor :
  getMessages parseInt parseDate toISOString createdAt user conversationId
    before limit now w = (200, Page msgs lim hasMore cursor) →
  ∃ userId cid members t rows,
    truthy user = Some userId
    ∧ truthy conversationId = Some cid
    ∧ conversations (db w) !! cid = Some members
    ∧ userId ∈ members
    ∧ (truthy before = None → t = now)
    ∧ (∀ b, truthy before = Some b → parseDate b = Some t)
    ∧ msgs = format_message toISOString createdAt (db w) <$> rows
    ∧ (lim ≤ 100)%Z
    ∧ ((0 ≤ lim)%Z → (Z.of_nat (length msgs) ≤ lim)%Z)
    ∧ Forall (λ row, messages (db w) !! row.1 = Some row.2
                     ∧ Message.conversationId row.2 = Some cid
                     ∧ (createdAt row.1 < t)%Z) rows
    ∧ NoDup rows.*1
    ∧ StronglySorted (newer_first createdAt) rows.
Proof.
  intros Hrun.
  destruct (getMessages_ok _ _ _ _ _ _ _ _ _ _ Hrun)
    as (userId & cid & members & n & t & Hu & Hc & Hmembers & Hin
        & Hn & -> & Hb & -> & _ & _).
  exists userId, cid, members, t, (findMany_before createdAt (db w) cid t
                                     (Z.min n 100)).
  destruct (findMany_before_spec createdAt (db w) cid t (Z.min n 100))
    as (Hlen & Hrows & Hnodup & Hsorted).
  split_and!; try done.
  - intros Hnone. rewrite Hnone in Hb. by simplify_eq.
  - intros b Hsome. by rewrite Hsome in Hb.
  - lia.
  - by rewrite length_fmap.
Qed.

Lemma view_ids (d : Db) (rows : list (string * Message.t)) :
  view_id <$> (format_message toISOString createdAt d <$> rows) = rows.*1.
Proof. rewrite <- list_fmap_compose. by apply list_fmap_ext. Qed.

(** X19.  What a page leaves out.  For a non-negative limit, a message of
    the conversation created before the cursor is missing from the page
    only when the page is full, and then it is at most as new as every
    message on the page.  [hasMore] says exactly that the page is full, so
    when it is false the page holds every such message; the next cursor is
    the creation time of the last (oldest) message of a full page. *)
Theorem getMessages_complete user conversationId before limit now w msgs
    lim hasMore cursor cid t :
  getMessages parseInt parseDate toISOString createdAt user conversationId
    before limit now w = (200, Page msgs lim hasMore cursor) →
  (0 ≤ lim)%Z →
  truthy conversationId = Some cid →
  match truthy before with Some b => parseDate b | None => Some now end
  = Some t →
  (∀ id m,
     messages (db w) !! id = Some m →
     Message.conversationId m = Some cid →
     (createdAt id < t)%Z →
     id ∉ view_id <$> msgs →
     Z.of_nat (length msgs) = lim
     ∧ Forall (λ v, (createdAt id ≤ createdAt (view_id v))%Z) msgs)
  ∧ (hasMore = true ↔ Z.of_nat (length msgs) = lim)
  ∧ (hasMore = false →
     ∀ id m,
       messages (db w) !! id = Some m →
       Message.conversationId m = Some cid →
       (createdAt id < t)%Z →
       id ∈ view_id <$> msgs)
  ∧ cursor = (if hasMore then view_createdAt <$> last msgs else None).
Proof.
  intros Hrun Hpos Hc Hb.
  destruct (getMessages_ok _ _ _ _ _ _ _ _ _ _ Hrun)
    as (userId & cid' & members & n & t' & Hu & Hc' & Hmembers & Hin
        & Hn & -> & Hb' & -> & -> & ->).
  rewrite Hc in Hc'. injection Hc' as <-.
  rewrite Hb in Hb'. injection Hb' as <-.
  rewrite view_ids, length_fmap.
  set (rows := findMany_before createdAt (db w) cid t (Z.min n 100)).
  assert (Hout : ∀ id m,
            messages (db w) !! id = Some m →
            Message.conversationId m = Some cid →
            (createdAt id < t)%Z →
            id ∉ rows.*1 →
            Z.of_nat (length rows) = Z.min n 100
            ∧ Forall (λ row, (createdAt id ≤ createdAt row.1)%Z) rows).
  { intros id m. by apply findMany_before_left_out. }
  split_and!.
  - intros id m Hm Hcid Ht Hnin.
    destruct (Hout id m Hm Hcid Ht Hnin) as [Hlen Hall].
    split; [done|]. by apply Forall_fmap.
  - apply bool_decide_eq_true.
  - intros Hfalse id m Hm Hcid Ht.
    destruct (decide (id ∈ rows.*1)) as [|Hnin]; [done|].
    destruct (Hout id m Hm Hcid Ht Hnin) as [Hlen _].
    by apply bool_decide_eq_false in Hfalse.
  - rewrite fmap_last. by destruct (last rows).
Qed.

(** X20.  Asking for the next page with the cursor of a page.  Provided
    the cursor strings parse back to the instants they were printed from:
    every message on the next page is strictly older than the last message
    of the first page, so no message is on both pages; and a message
    created in the same millisecond as that last message which is not on
    the first page is on neither of them. *)
Theorem getMessages_next_page user conversationId before limit limit2 now
    now2 w msgs1 lim1 hasMore1 c msgs2 lim2 hasMore2 cursor2 :
  (∀ id, parseDate (toISOString (createdAt id)) = Some (createdAt id)) →
  (∀ id, toISOString (createdAt id) ≠ "") →
  getMessages parseInt parseDate toISOString createdAt user conversationId
    before limit now w = (200, Page msgs1 lim1 hasMore1 (Some c)) →
  getMessages parseInt parseDate toISOString createdAt user conversationId
    (Some c) limit2 now2 w = (200, Page msgs2 lim2 hasMore2 cursor2) →
  ∃ oldest,
    last msgs1 = Some oldest
    ∧ c = view_createdAt oldest
    ∧ Forall (λ v, (createdAt (view_id oldest) ≤ createdAt (view_id v))%Z)
             msgs1
    ∧ Forall (λ v, (createdAt (view_id v) < createdAt (view_id oldest))%Z)
             msgs2
    ∧ (∀ id, id ∈ view_id <$> msgs1 → id ∉ view_id <$> msgs2)
    ∧ (∀ id, createdAt id = createdAt (view_id oldest) →
             id ∉ view_id <$> msgs1 → id ∉ view_id <$> msgs2).
Proof.
  intros Hrt Hne Hrun1 Hrun2.
  destruct (getMessages_ok _ _ _ _ _ _ _ _ _ _ Hrun1)
    as (userId & cid & members & n1 & t1 & _ & Hc & _ & _ & _ & -> & _
        & -> & _ & Hcursor).
  destruct (getMessages_ok _ _ _ _ _ _ _ _ _ _ Hrun2)
    as (userId2 & cid2 & members2 & n2 & t2 & _ & Hc2 & _ & _ & _ & -> & Hb2
        & -> & _ & _).
  rewrite Hc in Hc2. injection Hc2 as <-.
  destruct (findMany_before_spec createdAt (db w) cid t1 (Z.min n1 100))
    as (_ & _ & _ & Hsorted1).
  destruct (findMany_before_spec createdAt (db w) cid t2 (Z.min n2 100))
    as (_ & Hrows2 & _ & _).
  set (rows1 := findMany_before createdAt (db w) cid t1 (Z.min n1 100)) in *.
  set (rows2 := findMany_before createdAt (db w) cid t2 (Z.min n2 100)) in *.
  destruct hasMore1; [|done].
  destruct (last rows1) as [row|] eqn:Hrow; [|done].
  simpl in Hcursor. injection Hcursor as ->.
  assert (Ht2 : t2 = createdAt row.1).
  { unfold truthy in Hb2. rewrite decide_False in Hb2 by apply Hne.
    rewrite Hrt in Hb2. by injection Hb2. }
  subst t2.
  assert (Hall1 : Forall (λ r, (createdAt row.1 ≤ createdAt r.1)%Z) rows1).
  { apply last_Some in Hrow as [front ->].
    apply StronglySorted_app in Hsorted1 as (Hcross & _ & _).
    apply Forall_app. split.
    - apply Forall_forall. intros r Hr.
      apply (Hcross r row Hr). by apply list_elem_of_singleton.
    - by apply Forall_singleton. }
  assert (Hall2 : Forall (λ r, (createdAt r.1 < createdAt row.1)%Z) rows2).
  { eapply Forall_impl; [exact Hrows2|]. by intros r (_ & _ & ?). }
  exists (format_message toISOString createdAt (db w) row).
  split_and!; [by rewrite fmap_last, Hrow|done|..].
  - by apply Forall_fmap.
  - by apply Forall_fmap.
  - intros id. rewrite !view_ids.
    intros (r1 & -> & Hr1)%list_elem_of_fmap (r2 & Heq & Hr2)%list_elem_of_fmap.
    rewrite Forall_forall in Hall1, Hall2.
    specialize (Hall1 r1 Hr1). specialize (Hall2 r2 Hr2).
    rewrite Heq in Hall1. lia.
  - intros id Heq _. rewrite view_ids.
    intros (r2 & -> & Hr2)%list_elem_of_fmap.
    rewrite Forall_forall in Hall2. specialize (Hall2 r2 Hr2).
    simpl in Heq. lia.
Qed.

End Pagination_properties.

Lemma getMessages_page_witness :
  ∃ userId cid members t rows,
    truthy (Some "alice") = Some userId
    ∧ truthy (Some "c1") = Some cid
    ∧ conversations (db Paging.w) !! cid = Some members
    ∧ userId ∈ members
    ∧ (truthy None = None → t = 5000%Z)
    ∧ (∀ b, truthy None = Some b → Paging.parseDate b = Some t)
    ∧ page_messages Paging.first_page.2
      = format_message Paging.toISOString Paging.createdAt (db Paging.w)
          <$> rows
    ∧ (2 ≤ 100)%Z
    ∧ ((0 ≤ 2)%Z
       → (Z.of_nat (length (page_messages Paging.first_page.2)) ≤ 2)%Z)
    ∧ Forall (λ row, messages (db Paging.w) !! row.1 = Some row.2
                     ∧ Message.conversationId row.2 = Some cid
                     ∧ (Paging.createdAt row.1 < t)%Z) rows
    ∧ NoDup rows.*1
    ∧ StronglySorted (newer_first Paging.createdAt) rows.
Proof.
  apply (getMessages_page Paging.parseInt Paging.parseDate Paging.toISOString
           Paging.createdAt (Some "alice") (Some "c1") None (Some "2") 5000
           Paging.w (page_messages Paging.first_page.2) 2 true
           (Some "2000")).
  vm_compute; reflexivity.
Defined.

Lemma getMessages_complete_witness :
  (∀ id m,
     messages (db Paging.w) !! id = Some m →
     Message.conversationId m = Some "c1" →
     (Paging.createdAt id < 2000)%Z →
     id ∉ view_id <$> page_messages Paging.second_page.2 →
     Z.of_nat (length (page_messages Paging.second_page.2)) = 20%Z
     ∧ Forall (λ v, (Paging.createdAt id ≤ Paging.createdAt (view_id v))%Z)
              (page_messages Paging.second_page.2))
  ∧ (false = true
     ↔ Z.of_nat (length (page_messages Paging.second_page.2)) = 20%Z)
  ∧ (false = false →
     ∀ id m,
       messages (db Paging.w) !! id = Some m →
       Message.conversationId m = Some "c1" →
       (Paging.createdAt id < 2000)%Z →
       id ∈ view_id <$> page_messages Paging.second_page.2)
  ∧ None = (if false
            then view_createdAt <$> last (page_messages Paging.second_page.2)
            else None).
Proof.
  apply (getMessages_complete Paging.parseInt Paging.parseDate
           Paging.toISOString Paging.createdAt (Some "alice") (Some "c1")
           (Some "2000") None 6000 Paging.w
           (page_messages Paging.second_page.2) 20 false None "c1" 2000).
  - vm_compute; reflexivity.
  - lia.
  - reflexivity.
  - reflexivity.
Defined.

Lemma getMessages_next_page_witness :
  ∃ oldest,
    last (page_messages Paging.first_page.2) = Some oldest
    ∧ "2000" = view_createdAt oldest
    ∧ Forall (λ v, (Paging.createdAt (view_id oldest)
                    ≤ Paging.createdAt (view_id v))%Z)
             (page_messages Paging.first_page.2)
    ∧ Forall (λ v, (Paging.createdAt (view_id v)
                    < Paging.createdAt (view_id oldest))%Z)
             (page_messages Paging.second_page.2)
    ∧ (∀ id, id ∈ view_id <$> page_messages Paging.first_page.2 →
             id ∉ view_id <$> page_messages Paging.second_page.2)
    ∧ (∀ id, Paging.createdAt id = Paging.createdAt (view_id oldest) →
             id ∉ view_id <$> page_messages Paging.first_page.2 →
             id ∉ view_id <$> page_messages Paging.second_page.2).
Proof.
  apply (getMessages_next_page Paging.parseInt Paging.parseDate
           Paging.toISOString Paging.createdAt (Some "alice") (Some "c1")
           None (Some "2") None 5000 6000 Paging.w
           (page_messages Paging.first_page.2) 2 true "2000"
           (page_messages Paging.second_page.2) 20 false None).
  - intros id. unfold Paging.createdAt.
    repeat case_decide; vm_compute; reflexivity.
  - intros id. unfold Paging.createdAt.
    repeat case_decide; vm_compute; discriminate.
  - vm_compute; reflexivity.
  - vm_compute; reflexivity.
Defined.
